(** * jupyter_book/toc.py: a global table of contents for a Sphinx book

    A shallow embedding of [src/jupyter_book/toc.py] and of the parts of the
    Python standard library it calls ([pathlib.PurePosixPath], [str.split],
    [int], [str.capitalize], [sorted]), followed by the properties of the
    table-of-contents subsystem.

    Conventions.
    - A Python [str] is a [list ascii]; literals are written as Rocq strings
      and coerced.  Characters outside ASCII are carried as their UTF-8 bytes;
      the case mapping and the digit test know ASCII only.
    - A Python exception is a value of [exn]; a call that may raise returns a
      [result].
    - Values loaded from YAML are [pyval]s; a [dict] is an association list
      in insertion order, the first binding of a key being the live one.
    - Paths follow the POSIX flavour of pathlib ([Path] on Linux and macOS). *)

From Stdlib Require Import String Ascii Bool Arith ZArith Lia List.
From Stdlib Require Import Sorted Permutation.
Import ListNotations.

Set Warnings "-register-all".

Local Open Scope string_scope.
Local Open Scope nat_scope.
Local Open Scope list_scope.

Coercion list_ascii_of_string : string >-> list.

(* ================================================================= *)
(** ** Python values, exceptions *)

Module Py.

(** The exceptions the module meets.  The message of an exception raised
    by the module is its own; the one of an exception raised by the standard
    library is cut down to its fixed part. *)
Inductive exn : Type :=
| ValueError (msg : list ascii)
| FileNotFoundError (msg : list ascii)
| KeyError (key : list ascii)
| TypeError
| AttributeError
| IndexError
| UnboundLocalError
| ImportError.

Inductive result (A : Type) : Type :=
| Ok (a : A)
| Err (e : exn).
Arguments Ok {A} a.
Arguments Err {A} e.

Definition bind {A B} (r : result A) (k : A -> result B) : result B :=
  match r with
  | Ok a => k a
  | Err e => Err e
  end.

(** The values [yaml.safe_load] builds, as far as the module tells them
    apart: [None], booleans, integers, strings, lists and dicts with string
    keys.  Floats and dates are left out; the module treats them like any
    other value that is neither a string nor a container. *)
Inductive pyval : Type :=
| VNone
| VBool (b : bool)
| VInt (n : Z)
| VStr (s : list ascii)
| VList (items : list pyval)
| VDict (entries : list (list ascii * pyval)).

End Py.
Export Py.

Notation "x <- r ;; k" := (bind r (fun x => k))
  (at level 61, r at next level, right associativity).

(* ================================================================= *)
(** ** Strings *)

Module Str.

Fixpoint eqb (s t : list ascii) : bool :=
  match s, t with
  | [], [] => true
  | a :: s', b :: t' => Ascii.eqb a b && eqb s' t'
  | _, _ => false
  end.

(** [sep.join(items)] *)
Fixpoint join (sep : list ascii) (items : list (list ascii)) : list ascii :=
  match items with
  | [] => []
  | [x] => x
  | x :: rest => x ++ sep ++ join sep rest
  end.

(** [s.split(c)] for a one-character separator [c]: the pieces between
    the occurrences of [c], empty pieces included. *)
Fixpoint split_char (c : ascii) (s : list ascii) : list (list ascii) :=
  match s with
  | [] => [[]]
  | a :: s' =>
      if Ascii.eqb a c then [] :: split_char c s'
      else match split_char c s' with
           | [] => [[a]]
           | piece :: pieces => (a :: piece) :: pieces
           end
  end.

(** [s.lstrip(c)] *)
Fixpoint lstrip_char (c : ascii) (s : list ascii) : list ascii :=
  match s with
  | a :: s' => if Ascii.eqb a c then lstrip_char c s' else s
  | [] => []
  end.

(** [s.rfind(c)]: the index of the last occurrence of [c]; Python's [-1]
    is [None]. *)
Fixpoint rfind_char (c : ascii) (s : list ascii) : option nat :=
  match s with
  | [] => None
  | a :: s' =>
      match rfind_char c s' with
      | Some i => Some (S i)
      | None => if Ascii.eqb a c then Some 0 else None
      end
  end.

(** [prefix] is a prefix of [s] *)
Fixpoint startswith (prefix s : list ascii) : bool :=
  match prefix, s with
  | [], _ => true
  | p :: prefix', a :: s' => Ascii.eqb p a && startswith prefix' s'
  | _ :: _, [] => false
  end.

Definition endswith (suffix s : list ascii) : bool :=
  startswith (rev suffix) (rev s).

(** [sub in s] *)
Fixpoint contains (sub s : list ascii) : bool :=
  startswith sub s ||
  match s with
  | [] => false
  | _ :: s' => contains sub s'
  end.

(** [s.split(sep)] for a non-empty [sep]: the occurrences of [sep] are
    found from the left and do not overlap.  [skip] counts the characters
    of a separator still to pass, [cur] holds the piece being read,
    reversed. *)
Fixpoint split_aux (sep : list ascii) (skip : nat) (cur s : list ascii)
  : list (list ascii) :=
  match s with
  | [] => [rev cur]
  | a :: s' =>
      match skip with
      | S k => split_aux sep k cur s'
      | 0 =>
          if startswith sep s
          then rev cur :: split_aux sep (length sep - 1) [] s'
          else split_aux sep 0 (a :: cur) s'
      end
  end.

Definition split (sep s : list ascii) : result (list (list ascii)) :=
  match sep with
  | [] => Err (ValueError "empty separator")
  | _ :: _ => Ok (split_aux sep 0 [] s)
  end.

(** [s.replace(old, new)] for a non-empty [old] *)
Fixpoint replace_aux (old new : list ascii) (skip : nat) (s : list ascii)
  : list ascii :=
  match s with
  | [] => []
  | a :: s' =>
      match skip with
      | S k => replace_aux old new k s'
      | 0 =>
          if startswith old s
          then new ++ replace_aux old new (length old - 1) s'
          else a :: replace_aux old new 0 s'
      end
  end.

Definition replace (old new s : list ascii) : list ascii :=
  replace_aux old new 0 s.

(** The characters of a [str], as a loop or a [join] over it sees them. *)
Definition chars (s : list ascii) : list (list ascii) :=
  map (fun c => [c]) s.

Definition is_space (c : ascii) : bool :=
  let n := nat_of_ascii c in
  ((9 <=? n) && (n <=? 13)) || (n =? 32).

Definition is_digit (c : ascii) : bool :=
  let n := nat_of_ascii c in
  (48 <=? n) && (n <=? 57).

Definition strip (s : list ascii) : list ascii :=
  let fix lstrip (s : list ascii) : list ascii :=
    match s with
    | a :: s' => if is_space a then lstrip s' else s
    | [] => []
    end in
  rev (lstrip (rev (lstrip s))).

(** Decimal digits, single underscores allowed between two digits. *)
Fixpoint digits_ok (after_digit : bool) (s : list ascii) : bool :=
  match s with
  | [] => after_digit
  | c :: s' =>
      if is_digit c then digits_ok true s'
      else if Ascii.eqb c "_"%char then after_digit && digits_ok false s'
      else false
  end.

(** Whether [int(s)] returns rather than raises [ValueError], for a text
    of ASCII characters with at most 4300 digits.  ([int] also reads the
    digits and blanks of Unicode, and newer interpreters raise on more than
    4300 digits; a statement about other texts has to say so.) *)
Definition int_ok (s : list ascii) : bool :=
  match strip s with
  | c :: s' =>
      if Ascii.eqb c "+"%char || Ascii.eqb c "-"%char
      then digits_ok false s'
      else digits_ok false (c :: s')
  | [] => false
  end.

Definition upper (c : ascii) : ascii :=
  let n := nat_of_ascii c in
  if (97 <=? n) && (n <=? 122) then ascii_of_nat (n - 32) else c.

Definition lower (c : ascii) : ascii :=
  let n := nat_of_ascii c in
  if (65 <=? n) && (n <=? 90) then ascii_of_nat (n + 32) else c.

(** [s.capitalize()] for a text of ASCII characters.  (The bytes of other
    characters are left as they are, where [str.capitalize] maps the
    letters of Unicode too.) *)
Definition capitalize (s : list ascii) : list ascii :=
  match s with
  | [] => []
  | c :: s' => upper c :: map lower s'
  end.

(** [s <= t] in the order of [str]: character by character. *)
Fixpoint leb (s t : list ascii) : bool :=
  match s, t with
  | [], _ => true
  | _ :: _, [] => false
  | a :: s', b :: t' =>
      if nat_of_ascii a <? nat_of_ascii b then true
      else if nat_of_ascii b <? nat_of_ascii a then false
      else leb s' t'
  end.

End Str.

(* ================================================================= *)
(** ** pathlib: pure POSIX paths

    [PurePosixPath] as CPython 3.8 to 3.11 implement it: a path is parsed
    once, by [parse_parts], and the operations work on the parsed parts. *)

Module PurePath.

Definition sep : ascii := "/"%char.
Definition dot : ascii := "."%char.

(** A parsed path: the anchor ([''], ['/'] or ['//']; a POSIX path has no
    drive) and the name components below it.  Python's [parts] is the
    anchor, when there is one, followed by the names. *)
Record t : Type := mk { anchor : list ascii; names : list (list ascii) }.

Definition parts (p : t) : list (list ascii) :=
  match anchor p with
  | [] => names p
  | _ :: _ => anchor p :: names p
  end.

(** [_PosixFlavour.splitroot]: exactly two leading slashes are kept,
    any other number collapses to one. *)
Definition splitroot (part : list ascii) : list ascii * list ascii :=
  match part with
  | a :: _ =>
      if Ascii.eqb a sep then
        let stripped := Str.lstrip_char sep part in
        if Nat.eqb (length part - length stripped) 2
        then ([sep; sep], stripped)
        else ([sep], stripped)
      else ([], part)
  | [] => ([], part)
  end.

(** The components of the relative part: split at the separator, the
    empty pieces and ['.'] dropped. *)
Definition keep_component (x : list ascii) : bool :=
  negb (Str.eqb x []) && negb (Str.eqb x [dot]).

Definition components (rel : list ascii) : list (list ascii) :=
  filter keep_component (Str.split_char sep rel).

(** [_Flavour.parse_parts]: the arguments of [Path] are read from
    the last to the first; an argument with a root discards the ones before
    it; empty arguments are skipped. *)
Fixpoint parse_parts (args : list (list ascii)) : t :=
  match args with
  | [] => mk [] []
  | part :: rest =>
      let later := parse_parts rest in
      match anchor later, part with
      | _ :: _, _ => later
      | [], [] => later
      | [], _ :: _ =>
          let (root, rel) := splitroot part in
          mk root (components rel ++ names later)
      end
  end.

(** [Path(s)] *)
Definition of_str (s : list ascii) : t := parse_parts [s].

(** [str(p)]: the anchor and the names joined by the separator, ['.'] when
    that is empty. *)
Definition to_str (p : t) : list ascii :=
  match anchor p ++ Str.join [sep] (names p) with
  | [] => [dot]
  | c :: s => c :: s
  end.

(** [p.name]: the last component, [''] when there is none. *)
Definition name (p : t) : list ascii := last (names p) [].

(** [p.suffix] of a name: from the last dot on, unless that dot is the
    first or the last character. *)
Definition suffix_of (nm : list ascii) : list ascii :=
  match Str.rfind_char dot nm with
  | Some i => if (0 <? i) && (i <? length nm - 1) then skipn i nm else []
  | None => []
  end.

Definition suffix (p : t) : list ascii := suffix_of (name p).

(** [p.stem] of a name: the name without its suffix. *)
Definition stem_of (nm : list ascii) : list ascii :=
  match Str.rfind_char dot nm with
  | Some i => if (0 <? i) && (i <? length nm - 1) then firstn i nm else nm
  | None => nm
  end.

(** [p.with_suffix('')]: [ValueError] for a path without a name; else the
    old suffix is cut off the name. *)
Definition with_suffix_empty (p : t) : result t :=
  match name p with
  | [] => Err (ValueError "has an empty name")
  | _ :: _ =>
      let nm := name p in
      let old_suffix := suffix_of nm in
      let nm' := match old_suffix with
                 | [] => nm
                 | _ :: _ => firstn (length nm - length old_suffix) nm
                 end in
      Ok (mk (anchor p) (removelast (names p) ++ [nm']))
  end.

(** [p.parent] *)
Definition parent (p : t) : t := mk (anchor p) (removelast (names p)).

(** [p / child] for a child that is one name read from a directory *)
Definition child (p : t) (nm : list ascii) : t :=
  mk (anchor p) (names p ++ [nm]).

End PurePath.

(* ================================================================= *)
(** ** toc.py: normalisation and lookup *)

(** [_no_suffix(path)] *)
Definition _no_suffix (path : pyval) : result pyval :=
  match path with
  | VStr s =>
      p <- PurePath.with_suffix_empty (PurePath.of_str s) ;;
      Ok (VStr (PurePath.to_str p))
  | _ => Ok path
  end.

(** Truth value of a Python object, as [not x] and [if x] use it. *)
Definition truthy (v : pyval) : bool :=
  match v with
  | VNone => false
  | VBool b => b
  | VInt n => negb (Z.eqb n 0)
  | VStr s => negb (Str.eqb s [])
  | VList items => match items with [] => false | _ :: _ => true end
  | VDict entries => match entries with [] => false | _ :: _ => true end
  end.

(** [d.get(key)], [None] of Rocq when the key is absent. *)
Fixpoint dict_get (entries : list (list ascii * pyval)) (key : list ascii)
  : option pyval :=
  match entries with
  | [] => None
  | (k, v) :: entries' => if Str.eqb k key then Some v else dict_get entries' key
  end.

(** [d.get(key, default)] *)
Definition dict_get_default (entries : list (list ascii * pyval))
  (key : list ascii) (default : pyval) : pyval :=
  match dict_get entries key with
  | Some v => v
  | None => default
  end.

(** [d[key] = v]: an existing key keeps its place, a new one goes last. *)
Fixpoint dict_set (entries : list (list ascii * pyval)) (key : list ascii)
  (v : pyval) : list (list ascii * pyval) :=
  match entries with
  | [] => [(key, v)]
  | (k, w) :: entries' =>
      if Str.eqb k key then (k, v) :: entries'
      else (k, w) :: dict_set entries' key v
  end.

(** [obj.get(key, default)] on any object: only a dict has [get]. *)
Definition py_get (obj : pyval) (key : list ascii) (default : pyval)
  : result pyval :=
  match obj with
  | VDict entries => Ok (dict_get_default entries key default)
  | _ => Err AttributeError
  end.

(** [obj[key]] with a [str] key *)
Definition py_getitem (obj : pyval) (key : list ascii) : result pyval :=
  match obj with
  | VDict entries =>
      match dict_get entries key with
      | Some v => Ok v
      | None => Err (KeyError key)
      end
  | _ => Err TypeError
  end.

(** [obj[key] = v] with a [str] key *)
Definition py_setitem (obj : pyval) (key : list ascii) (v : pyval)
  : result pyval :=
  match obj with
  | VDict entries => Ok (VDict (dict_set entries key v))
  | _ => Err TypeError
  end.

(** [for x in obj]: the items a loop over [obj] sees. *)
Definition py_iter (obj : pyval) : result (list pyval) :=
  match obj with
  | VList items => Ok items
  | VDict entries => Ok (map (fun kv => VStr (fst kv)) entries)
  | VStr s => Ok (map (fun c => VStr [c]) s)
  | _ => Err TypeError
  end.

(** [v == name] for a [str] [name] *)
Definition py_eq_str (v : pyval) (name : list ascii) : bool :=
  match v with
  | VStr s => Str.eqb s name
  | _ => false
  end.

(** [find_name(pages, name)], [name] being a [str] as at its call site.

    The loop visits the pages in order; a page whose suffix-free path is
    [name] is returned, otherwise its sections are searched before the next
    page is looked at.  Falling off the loop returns [None].

    [in_sections] is [page.get("sections", [])] and the call of [find_name]
    on it in one: it goes to the value of the key [sections], which keeps
    the recursion structural; [find_name_dict] and [find_name_cons] below
    state the loop with [page_sections]. *)
Fixpoint find_name (pages : pyval) (name : list ascii) {struct pages}
  : result pyval :=
  let visit (page : pyval) (next_pages : result pyval) : result pyval :=
    match page with
    | VDict entries =>
        key <- _no_suffix (dict_get_default entries "path" VNone) ;;
        if py_eq_str key name then Ok page
        else
          found <-
            (fix in_sections (es : list (list ascii * pyval)) : result pyval :=
               match es with
               | [] => Ok VNone
               | (k, v) :: es' =>
                   if Str.eqb k "sections" then find_name v name
                   else in_sections es'
               end) entries ;;
          match found with
          | VNone => next_pages
          | _ => Ok found
          end
    | _ => Err AttributeError
    end in
  match pages with
  | VDict _ => visit pages (Ok VNone)
  | VList items =>
      (fix loop (l : list pyval) : result pyval :=
         match l with
         | [] => Ok VNone
         | page :: rest => visit page (loop rest)
         end) items
  | VStr s =>
      match s with
      | [] => Ok VNone
      | _ :: _ => Err AttributeError
      end
  | _ => Err TypeError
  end.

(* ================================================================= *)
(** ** toc.py: the Sphinx hooks *)

(** The options of [app.config] the extension reads and writes. *)
Record config : Type := mkConfig {
  globaltoc_path : pyval;
  globaltoc : pyval;
  master_doc : pyval
}.

(** nbformat's notebook, as far as [add_toctree] touches it. *)
Record notebook (cell : Type) : Type := mkNotebook {
  cells : list cell;
  nb_other : pyval
}.
Arguments mkNotebook {cell} cells nb_other.
Arguments cells {cell} n.
Arguments nb_other {cell} n.

Definition toctree_text (options sections : list ascii) : list ascii :=
  [ascii_of_nat 10] ++ "```{toctree}" ++ [ascii_of_nat 10] ++
  ":hidden:" ++ [ascii_of_nat 10] ++
  ":titlesonly:" ++ [ascii_of_nat 10] ++
  options ++ [ascii_of_nat 10] ++
  [ascii_of_nat 10] ++
  sections ++ [ascii_of_nat 10] ++
  "```" ++ [ascii_of_nat 10].

(** The message of the error raised for a page missing from the table of
    contents. *)
Definition page_not_found_message (path : list ascii) : list ascii :=
  "The following path in your table of contents couldn't be found:" ++
  [ascii_of_nat 10; ascii_of_nat 10] ++ path ++ "." ++
  [ascii_of_nat 10; ascii_of_nat 10] ++
  "Double check your `_toc.yml` file to make sure the paths are correct.".

(** [[f x for x in l]] for an [f] that may raise *)
Fixpoint map_result {A B} (f : A -> result B) (l : list A) : result (list B) :=
  match l with
  | [] => Ok []
  | x :: l' => y <- f x ;; ys <- map_result f l' ;; Ok (y :: ys)
  end.

(** The tree [update_indexname] makes of a loaded manifest: the first
    record of a list, the records after it put under its key [sections].
    Nothing is assigned to [toc_updated] when the manifest is not a list. *)
Definition toc_of_manifest (toc : pyval) : result pyval :=
  match toc with
  | VList items =>
      match items with
      | [] => Err IndexError
      | first :: subsections =>
          match subsections with
          | [] => Ok first
          | _ :: _ => py_setitem first "sections" (VList subsections)
          end
      end
  | _ => Err UnboundLocalError
  end.

Section Hooks.

(** What the hooks get from outside this module. *)

(** [yaml.safe_load(Path(p).read_text())] *)
Variable read_manifest : pyval -> result pyval.
(** [app.env.doc2path(docname, base=None)] *)
Variable doc2path : list ascii -> list ascii.
(** [os.path.relpath(path, start)] *)
Variable os_path_relpath : pyval -> list ascii -> result (list ascii).
(** what an f-string makes of a value; the identity on a [str] *)
Variable py_format : pyval -> list ascii.
(** nbformat: [reads(text, NO_CONVERT)], [v4.new_markdown_cell], [writes] *)
Variable cell : Type.
Variable nbf_reads : list ascii -> result (notebook cell).
Variable nbf_new_markdown_cell : list ascii -> cell.
Variable nbf_writes : notebook cell -> list ascii.

(** [update_indexname(app, config)]: the new state of [app.config]. *)
Definition update_indexname (cfg : config) : result config :=
  if negb (truthy (globaltoc_path cfg)) then Ok cfg
  else
    toc <- read_manifest (globaltoc_path cfg) ;;
    toc_updated <- toc_of_manifest toc ;;
    path <- py_getitem toc_updated "path" ;;
    master <- _no_suffix path ;;
    Ok (mkConfig (globaltoc_path cfg) toc_updated master).

(** One entry of the toctree: the section's path relative to the folder of
    the parent page, behind the section's name when it has one. *)
Definition section_entry (page : pyval) (sec : pyval * pyval)
  : result (list ascii) :=
  let (path_sec, name) := sec in
  page_path <- py_getitem page "path" ;;
  match page_path with
  | VStr s =>
      let path_parent_folder := PurePath.parent (PurePath.of_str s) in
      rel <- os_path_relpath path_sec (PurePath.to_str path_parent_folder) ;;
      if truthy name then Ok (py_format name ++ " <" ++ rel ++ ">")
      else Ok rel
  | _ => Err TypeError
  end.

(** The last step of [add_toctree]: the toctree goes into the source,
    the way the suffix of the document asks for. *)
Definition inject (suff toctree source : list ascii) : result (list ascii) :=
  if Str.eqb suff ".md" then Ok (source ++ toctree ++ [ascii_of_nat 10])
  else if Str.eqb suff ".ipynb" then
    ntbk <- nbf_reads source ;;
    let md := nbf_new_markdown_cell toctree in
    Ok (nbf_writes (mkNotebook (cells ntbk ++ [md]) (nb_other ntbk)))
  else Err (ValueError "Only markdown and ipynb files are supported.").

(** The toctree directive [add_toctree] writes for the sections of [page];
    [None] of Rocq when the page has no section and nothing is written. *)
Definition page_toctree (page : pyval) : result (option (list ascii)) :=
  page_sections <- py_get page "sections" (VList []) ;;
  items <- py_iter page_sections ;;
  sections <-
    map_result (fun ii => p <- py_get ii "path" VNone ;;
                          n <- py_get ii "name" VNone ;;
                          Ok (p, n)) items ;;
  match sections with
  | [] => Ok None
  | _ :: _ =>
      labels <- map_result (section_entry page) sections ;;
      options <- py_get page "options" (VList []) ;;
      option_items <-
        match options with
        | VStr _ => Ok [options]
        | _ => py_iter options
        end ;;
      let option_lines :=
        Str.join [ascii_of_nat 10]
          (map (fun ii => ":" ++ py_format ii ++ ":") option_items) in
      Ok (Some (toctree_text option_lines (Str.join [ascii_of_nat 10] labels)))
  end.

(** [add_toctree(app, docname, source)]: the new [source[0]]. *)
Definition add_toctree (cfg : config) (docname : list ascii)
  (source : list ascii) : result (list ascii) :=
  if negb (truthy (globaltoc_path cfg)) then Ok source
  else
    let path := doc2path docname in
    let toc := globaltoc cfg in
    key <- _no_suffix (VStr path) ;;
    page <- match key with
            | VStr k => find_name toc k
            | _ => Err TypeError
            end ;;
    match page with
    | VNone => Err (FileNotFoundError (page_not_found_message path))
    | _ =>
        toctree <- page_toctree page ;;
        match toctree with
        | None => Ok source
        | Some toctree =>
            let suff := PurePath.suffix (PurePath.of_str path) in
            inject suff toctree source
        end
    end.

End Hooks.

(* ================================================================= *)
(** ** The content folder *)

(** What [build_toc] sees of the file system: a file, or a directory with
    its entries in the order [os.scandir] lists them.  There are no
    symbolic links, and reading a directory does not fail. *)
Inductive fsnode : Type :=
| File
| Dir (entries : list (list ascii * fsnode)).

Definition is_dir (n : fsnode) : bool :=
  match n with
  | Dir _ => true
  | File => false
  end.

Definition dir_entries (n : fsnode) : list (list ascii * fsnode) :=
  match n with
  | Dir entries => entries
  | File => []
  end.

(** [directory.glob('*' + suffix)]: the entries of the directory, files and
    directories alike, whose name ends with [suffix]. *)
Definition glob_suffix (directory : PurePath.t) (node : fsnode)
  (suffix : list ascii) : list PurePath.t :=
  map (fun e => PurePath.child directory (fst e))
      (filter (fun e => Str.endswith suffix (fst e)) (dir_entries node)).

(** The directories [rglob] looks into: the starting one, then, entry by
    entry, those below it. *)
Fixpoint iterate_directories (directory : PurePath.t) (node : fsnode)
  : list (PurePath.t * fsnode) :=
  match node with
  | File => []
  | Dir entries =>
      (directory, node) ::
      (fix below (es : list (list ascii * fsnode)) : list (PurePath.t * fsnode) :=
         match es with
         | [] => []
         | (nm, sub) :: es' =>
             iterate_directories (PurePath.child directory nm) sub ++ below es'
         end) entries
  end.

(** [directory.rglob('*' + suffix)] *)
Definition rglob_suffix (directory : PurePath.t) (node : fsnode)
  (suffix : list ascii) : list PurePath.t :=
  flat_map (fun d => glob_suffix (fst d) (snd d) suffix)
           (iterate_directories directory node).

(* ================================================================= *)
(** ** toc.py: generating a table of contents *)

Definition SUPPORTED_FILE_SUFFIXES : list (list ascii) :=
  [ ".ipynb" : list ascii; ".md" : list ascii; ".markdown" : list ascii;
    ".Rmd" : list ascii; ".py" : list ascii; "#BREAK#" : list ascii ].

(** [_filename_to_title(filename, split_char)] *)
Definition _filename_to_title (filename split_char : list ascii)
  : result (list ascii) :=
  stripped <- PurePath.with_suffix_empty (PurePath.of_str filename) ;;
  let filename := PurePath.name stripped in
  filename_parts <- Str.split split_char filename ;;
  let filename_parts :=
    if Str.int_ok (hd [] filename_parts) then
      if 1 <? length filename_parts then tl filename_parts
      else filename_parts
    else filename_parts in
  Ok (Str.join " " (map Str.capitalize filename_parts)).

(** [_list_supported_files(directory, exclude, rglob)] *)
Definition _list_supported_files (directory : PurePath.t) (node : fsnode)
  (exclude : list (list ascii)) (rglob : bool) : list PurePath.t :=
  let glob := if rglob then rglob_suffix directory node
              else glob_suffix directory node in
  flat_map
    (fun suffix =>
       filter (fun ipath =>
                 negb (existsb (Str.eqb (PurePath.name ipath)) exclude) &&
                 negb (Str.contains "ipynb_checkpoints" (PurePath.to_str ipath)))
              (glob suffix))
    SUPPORTED_FILE_SUFFIXES.

Definition default_exclude : list (list ascii) := [ "LICENSE.md" : list ascii ].

(** [sorted] on paths that are entries of one directory: by name. *)
Fixpoint insert_sorted (e : list ascii * fsnode)
  (l : list (list ascii * fsnode)) : list (list ascii * fsnode) :=
  match l with
  | [] => [e]
  | x :: l' =>
      if Str.leb (fst x) (fst e) then x :: insert_sorted e l'
      else e :: l
  end.

Definition sorted_entries (l : list (list ascii * fsnode))
  : list (list ascii * fsnode) :=
  fold_left (fun acc e => insert_sorted e acc) l [].

Definition BREAK_MARKER : list ascii := "## REPLACE ##".
Definition BREAK_LINE : list ascii := "- '## REPLACE ##'".

(** The path of a record: [ipath.with_suffix('')] without its first part,
    put together again by [Path] and turned into a [str]. *)
Definition record_path (ipath : PurePath.t) : result (list ascii) :=
  ipath' <- PurePath.with_suffix_empty ipath ;;
  Ok (PurePath.to_str (PurePath.parse_parts (tl (PurePath.parts ipath')))).

(** The records one sub-directory contributes: none when it holds no
    supported file, else the break marker, the header and one [url] record a
    file. *)
Definition subdir_pages (content_folder : PurePath.t)
  (filename_split_char : list ascii) (e : list ascii * fsnode)
  : result (list pyval) :=
  let subdir := PurePath.child content_folder (fst e) in
  let ipaths := _list_supported_files subdir (snd e) default_exclude true in
  match ipaths with
  | [] => Ok []
  | _ :: _ =>
      title <- _filename_to_title (PurePath.name subdir) filename_split_char ;;
      urls <- map_result record_path ipaths ;;
      Ok (VStr BREAK_MARKER :: VDict [("header" : list ascii, VStr title)] ::
          map (fun url => VDict [("url" : list ascii, VStr url)]) urls)
  end.

(** The top-level directories of the content folder, sorted; the
    checkpoint directories of notebooks are left out. *)
Definition subdirectories (node : fsnode) : list (list ascii * fsnode) :=
  sorted_entries
    (filter (fun e => is_dir (snd e) &&
                      negb (Str.contains ".ipynb_checkpoints" (fst e)))
            (dir_entries node)).

(** The list [toc_pages] that [build_toc] has built when its loops end. *)
Definition toc_pages (content_folder : PurePath.t) (node : fsnode)
  (filename_split_char : list ascii) : result (list pyval) :=
  let paths := _list_supported_files content_folder node default_exclude false in
  top <- map_result record_path paths ;;
  below <- map_result (subdir_pages content_folder filename_split_char)
                      (subdirectories node) ;;
  Ok (map (fun path => VDict [("path" : list ascii, VStr path)]) top
      ++ concat below).

Section BuildToc.

(** [yaml.safe_dump] *)
Variable yaml_safe_dump : list pyval -> list ascii.
(** [import IPython; IPython.embed()]: the interactive shell left in the
    function; it returns when the user leaves it. *)
Variable ipython_embed : result unit.

(** The text made of the records: the dump without its break lines. *)
Definition manifest_text (pages : list pyval) : list ascii :=
  Str.replace BREAK_LINE [] (yaml_safe_dump pages).

(** [build_toc(content_folder, filename_split_char)]; [found] is what the
    file system holds at [content_folder], if anything.

    The list [out] of the two header texts (line 200) is replaced by the
    text of the records (line 230) before it is used, so the headers are
    not part of the result; and the [join] of the last line runs over the
    characters of that text. *)
Definition build_toc (found : option fsnode)
  (content_folder filename_split_char : list ascii) : result (list ascii) :=
  let folder := PurePath.of_str content_folder in
  match found with
  | Some (Dir entries) =>
      pages <- toc_pages folder (Dir entries) filename_split_char ;;
      _ <- ipython_embed ;;
      let out := manifest_text pages in
      Ok (Str.join [ascii_of_nat 10] (Str.chars out))
  | _ =>
      Err (ValueError ("Could not find the provided content folder" ++
                       [ascii_of_nat 10] ++ PurePath.to_str folder))
  end.

End BuildToc.

(* ================================================================= *)
(** ** Vocabulary of the properties *)

(** A suffix as [p.suffix] can return it: a dot, then at least one character,
    none of them a dot or a separator. *)
Definition valid_suffix (s : list ascii) : bool :=
  match s with
  | d :: c :: rest =>
      Ascii.eqb d PurePath.dot &&
      forallb (fun x => negb (Ascii.eqb x PurePath.dot) &&
                        negb (Ascii.eqb x PurePath.sep)) (c :: rest)
  | _ => false
  end.

(** A string without the separator. *)
Definition no_sep (s : list ascii) : bool :=
  forallb (fun x => negb (Ascii.eqb x PurePath.sep)) s.

(** A name a directory can list: not empty, no separator, neither ['.'] nor
    ['..']. *)
Definition valid_name (nm : list ascii) : bool :=
  negb (Str.eqb nm []) && no_sep nm &&
  negb (Str.eqb nm ".") && negb (Str.eqb nm "..").

(** Every entry below [node] has a valid name. *)
Fixpoint fs_ok (node : fsnode) : bool :=
  match node with
  | File => true
  | Dir entries =>
      (fix each (es : list (list ascii * fsnode)) : bool :=
         match es with
         | [] => true
         | (nm, sub) :: es' => valid_name nm && fs_ok sub && each es'
         end) entries
  end.

Definition page_path (page : pyval) : pyval :=
  match page with
  | VDict entries => dict_get_default entries "path" VNone
  | _ => VNone
  end.

Definition page_sections (page : pyval) : pyval :=
  match page with
  | VDict entries => dict_get_default entries "sections" (VList [])
  | _ => VList []
  end.

(** One turn of the loop of [find_name] on [page]; [next_pages] is what the
    rest of the loop returns. *)
Definition visit (name : list ascii) (page : pyval) (next_pages : result pyval)
  : result pyval :=
  match page with
  | VDict _ =>
      key <- _no_suffix (page_path page) ;;
      if py_eq_str key name then Ok page
      else
        found <- find_name (page_sections page) name ;;
        match found with
        | VNone => next_pages
        | _ => Ok found
        end
  | _ => Err AttributeError
  end.

(** The nodes of a tree, a page before its sections, the sections from the
    first to the last. *)
Fixpoint nodes (pages : pyval) : list pyval :=
  match pages with
  | VDict entries =>
      pages ::
      (fix in_sections (es : list (list ascii * pyval)) : list pyval :=
         match es with
         | [] => []
         | (k, v) :: es' =>
             if Str.eqb k "sections" then nodes v else in_sections es'
         end) entries
  | VList items =>
      (fix each (l : list pyval) : list pyval :=
         match l with
         | [] => []
         | page :: rest => nodes page ++ each rest
         end) items
  | _ => []
  end.

Definition is_dict (v : pyval) : bool :=
  match v with
  | VDict _ => true
  | _ => false
  end.

Definition is_ok {A} (r : result A) : bool :=
  match r with
  | Ok _ => true
  | Err _ => false
  end.

(** A tree [find_name] walks without an exception: every node is a dict
    whose path, if it has one, has a final name, and whose sections, if it
    has some, are a list of such nodes or one such node. *)
Fixpoint well_formed (pages : pyval) : bool :=
  match pages with
  | VDict entries =>
      is_ok (_no_suffix (dict_get_default entries "path" VNone)) &&
      (fix in_sections (es : list (list ascii * pyval)) : bool :=
         match es with
         | [] => true
         | (k, v) :: es' =>
             if Str.eqb k "sections" then well_formed v else in_sections es'
         end) entries
  | VList items =>
      (fix each (l : list pyval) : bool :=
         match l with
         | [] => true
         | page :: rest => is_dict page && well_formed page && each rest
         end) items
  | _ => false
  end.

(** The key [find_name] compares with: the suffix-free path of a page that
    has a [str] path. *)
Definition page_key (page : pyval) : option (list ascii) :=
  match _no_suffix (page_path page) with
  | Ok (VStr k) => Some k
  | _ => None
  end.

Definition keys (pages : pyval) : list (list ascii) :=
  flat_map (fun n => match page_key n with Some k => [k] | None => [] end)
           (nodes pages).

Definition has_key (key : list ascii) (v : pyval) : bool :=
  match v with
  | VDict entries =>
      match dict_get entries key with
      | Some _ => true
      | None => false
      end
  | _ => false
  end.

(** The records of a generated manifest: the pages without the break
    markers, which the text of the manifest does not keep. *)
Definition manifest_records (pages : list pyval) : list pyval :=
  filter is_dict pages.

Definition path_record (path : list ascii) : pyval :=
  VDict [("path" : list ascii, VStr path)].
Definition header_record (title : list ascii) : pyval :=
  VDict [("header" : list ascii, VStr title)].
Definition url_record (url : list ascii) : pyval :=
  VDict [("url" : list ascii, VStr url)].

(** A component [Path] keeps: not empty, not ['.'], no separator. *)
Definition comp_ok (x : list ascii) : Prop :=
  x <> [] /\ x <> [PurePath.dot] /\ ~ In PurePath.sep x.

(** The paths [Path] builds from a [str]. *)
Definition path_ok (p : PurePath.t) : Prop :=
  (PurePath.anchor p = [] \/ PurePath.anchor p = [PurePath.sep] \/
   PurePath.anchor p = [PurePath.sep; PurePath.sep]) /\
  Forall comp_ok (PurePath.names p).

(** [_no_suffix] applied to its own result *)
Definition normalize_twice (p : list ascii) : result pyval :=
  q <- _no_suffix (VStr p) ;; _no_suffix q.

(** A directory prefix: empty, or text that ends with the separator. *)
Definition dir_prefix (d : list ascii) : bool :=
  match rev d with
  | [] => true
  | c :: _ => Ascii.eqb c PurePath.sep
  end.

(** Whether [find_name] takes [page] for [name]. *)
Definition matches (name : list ascii) (page : pyval) : bool :=
  match page_key page with
  | Some k => Str.eqb k name
  | None => false
  end.

(** What a Python function hands back for an optional result. *)
Definition or_none (o : option pyval) : pyval :=
  match o with
  | Some v => v
  | None => VNone
  end.

(** No string twice in the list. *)
Fixpoint distinct (l : list (list ascii)) : bool :=
  match l with
  | [] => true
  | x :: l' => negb (existsb (Str.eqb x) l') && distinct l'
  end.

(** A record of a generated manifest: one key, [path], [header] or
    [url], with a [str]. *)
Definition flat_record (v : pyval) : Prop :=
  (exists p, v = path_record p) \/ (exists t, v = header_record t) \/
  (exists u, v = url_record u).

(** The content folder [root] with the file [01_intro.md] and the
    directory [02_data] that holds [a.md] and [b.md], listed in this
    order. *)
Definition example_layout : fsnode :=
  Dir [("01_intro.md" : list ascii, File);
       ("02_data" : list ascii,
        Dir [("a.md" : list ascii, File); ("b.md" : list ascii, File)])].

(** A path text without a name: every piece between two separators is
    empty or a dot. *)
Definition nameless (s : list ascii) : bool :=
  forallb (fun piece => Str.eqb piece [] || Str.eqb piece ".")
          (Str.split_char PurePath.sep s).

(** A path text that does not start at the root. *)
Definition is_relative (s : list ascii) : bool :=
  match s with
  | c :: _ => negb (Ascii.eqb c PurePath.sep)
  | [] => false
  end.

(** A piece of a file name: no character [c], no dot, no separator. *)
Definition plain_piece (c : ascii) (x : list ascii) : bool :=
  forallb (fun ch => negb (Ascii.eqb ch c) && negb (Ascii.eqb ch PurePath.dot) &&
                     negb (Ascii.eqb ch PurePath.sep)) x.

(** [head ++ piece] for the first of the pieces, [head] alone when there is
    none. *)
Definition prepend (head : list ascii) (pieces : list (list ascii))
  : list (list ascii) :=
  match pieces with
  | piece :: rest => (head ++ piece) :: rest
  | [] => [head]
  end.

(** Whether [_list_supported_files] keeps an entry called [nm] of the
    directory [directory]: the name ends with a supported suffix, is not
    excluded, and [ipynb_checkpoints] is nowhere in the path. *)
Definition supported_entry (directory : PurePath.t) (exclude : list (list ascii))
  (nm : list ascii) : bool :=
  existsb (fun suffix => Str.endswith suffix nm) SUPPORTED_FILE_SUFFIXES &&
  negb (existsb (Str.eqb nm) exclude) &&
  negb (Str.contains "ipynb_checkpoints"
                     (PurePath.to_str (PurePath.child directory nm))).

(** The order of [sorted] on the entries of a directory: by name. *)
Definition name_le (a b : list ascii * fsnode) : Prop :=
  Str.leb (fst a) (fst b) = true.

(** Every second character of a text, from the first on. *)
Fixpoint every_other (s : list ascii) : list ascii :=
  match s with
  | a :: rest =>
      a :: match rest with
           | _ :: rest' => every_other rest'
           | [] => []
           end
  | [] => []
  end.

(** The text made of lines, a newline behind each. *)
Definition unlines (lines : list (list ascii)) : list ascii :=
  concat (map (fun line => line ++ [ascii_of_nat 10]) lines).

(** The options of a page as [add_toctree] reads them: none when the key
    is absent, the one option when the value is a [str], the items when it
    is a list. *)
Definition option_items (entries : list (list ascii * pyval))
  : option (list pyval) :=
  match dict_get entries "options" with
  | None => Some []
  | Some (VStr o) => Some [VStr o]
  | Some (VList items) => Some items
  | Some _ => None
  end.

(** The line of the toctree for a section whose relative path is [rel]. *)
Definition section_label (py_format : pyval -> list ascii)
  (sec : list (list ascii * pyval)) (rel : list ascii) : list ascii :=
  let name := dict_get_default sec "name" VNone in
  if truthy name then py_format name ++ " <" ++ rel ++ ">" else rel.

(** A character of ASCII. *)
Definition is_ascii (c : ascii) : bool := nat_of_ascii c <? 128.

(* ================================================================= *)
(** ** Strings: lemmas *)

Lemma str_eqb_eq (s t : list ascii) : Str.eqb s t = true <-> s = t.
Proof.
  revert t; induction s as [|a s IH]; intros [|b t]; simpl;
    try (split; [discriminate | discriminate]); try tauto.
  rewrite andb_true_iff, Ascii.eqb_eq, IH.
  split; [intros [-> ->]; reflexivity | intros H; inversion H; auto].
Qed.

Lemma str_eqb_refl (s : list ascii) : Str.eqb s s = true.
Proof. apply str_eqb_eq; reflexivity. Qed.

Lemma str_eqb_neq (s t : list ascii) : Str.eqb s t = false <-> s <> t.
Proof.
  rewrite <- str_eqb_eq. destruct (Str.eqb s t); split; congruence.
Qed.

Lemma split_char_not_nil (c : ascii) (s : list ascii) :
  Str.split_char c s <> [].
Proof.
  induction s as [|a s IH]; simpl; [discriminate|].
  destruct (Ascii.eqb a c); [discriminate|].
  destruct (Str.split_char c s); discriminate.
Qed.

Lemma split_char_no_sep (c : ascii) (s : list ascii) :
  ~ In c s -> Str.split_char c s = [s].
Proof.
  induction s as [|a s IH]; simpl; intros H; [reflexivity|].
  destruct (Ascii.eqb a c) eqn:E.
  - apply Ascii.eqb_eq in E. tauto.
  - rewrite IH by tauto. reflexivity.
Qed.

Lemma split_char_app (c : ascii) (a b : list ascii) :
  Str.split_char c (a ++ c :: b) = Str.split_char c a ++ Str.split_char c b.
Proof.
  induction a as [|x a IH]; simpl.
  - rewrite Ascii.eqb_refl. reflexivity.
  - destruct (Ascii.eqb x c); rewrite IH; [reflexivity|].
    pose proof (split_char_not_nil c a) as N.
    destruct (Str.split_char c a); [congruence | reflexivity].
Qed.

Lemma split_char_pieces (c : ascii) (s : list ascii) :
  Forall (fun piece => ~ In c piece) (Str.split_char c s).
Proof.
  induction s as [|a s IH]; simpl.
  - constructor; [tauto | constructor].
  - destruct (Ascii.eqb a c) eqn:E.
    + constructor; [tauto | exact IH].
    + destruct (Str.split_char c s) as [|piece pieces].
      * constructor; [|constructor]. simpl. intros [->|[]].
        rewrite Ascii.eqb_refl in E. discriminate.
      * inversion IH; subst. constructor; [|assumption].
        simpl. intros [->|H]; [|tauto].
        rewrite Ascii.eqb_refl in E. discriminate.
Qed.

Lemma split_char_join (c : ascii) (items : list (list ascii)) :
  items <> [] -> Forall (fun x => ~ In c x) items ->
  Str.split_char c (Str.join [c] items) = items.
Proof.
  induction items as [|x items IH]; [congruence|].
  intros _ F. inversion F as [|? ? Hx F']; subst.
  destruct items as [|y items].
  - simpl. apply split_char_no_sep; assumption.
  - change (Str.join [c] (x :: y :: items))
      with (x ++ c :: Str.join [c] (y :: items)).
    rewrite split_char_app, IH by (assumption || discriminate).
    rewrite split_char_no_sep by assumption. reflexivity.
Qed.

Lemma lstrip_char_app (c : ascii) (d x : list ascii) :
  x <> [] -> hd c x <> c ->
  Str.lstrip_char c (d ++ x) = Str.lstrip_char c d ++ x.
Proof.
  intros Hx Hh. induction d as [|a d IH]; simpl.
  - destruct x as [|b x]; [congruence|]. simpl in *.
    destruct (Ascii.eqb b c) eqn:E; [|reflexivity].
    apply Ascii.eqb_eq in E. congruence.
  - destruct (Ascii.eqb a c); [exact IH | reflexivity].
Qed.

Lemma lstrip_char_same (c : ascii) (s : list ascii) :
  Str.lstrip_char c (c :: s) = Str.lstrip_char c s.
Proof. simpl. rewrite Ascii.eqb_refl. reflexivity. Qed.

Lemma lstrip_char_length (c : ascii) (s : list ascii) :
  length (Str.lstrip_char c s) <= length s.
Proof.
  induction s as [|a s IH]; simpl; [lia|].
  destruct (Ascii.eqb a c); simpl; lia.
Qed.

Lemma lstrip_char_repeat (c : ascii) (n : nat) (x : list ascii) :
  hd_error x <> Some c ->
  Str.lstrip_char c (repeat c n ++ x) = x.
Proof.
  intros H. induction n as [|n IH]; simpl.
  - destruct x as [|b x]; [reflexivity|]. simpl in *.
    destruct (Ascii.eqb b c) eqn:E; [|reflexivity].
    apply Ascii.eqb_eq in E. congruence.
  - rewrite Ascii.eqb_refl. exact IH.
Qed.

Lemma rfind_char_none (c : ascii) (s : list ascii) :
  ~ In c s -> Str.rfind_char c s = None.
Proof.
  induction s as [|a s IH]; simpl; intros H; [reflexivity|].
  rewrite IH by tauto.
  destruct (Ascii.eqb a c) eqn:E; [|reflexivity].
  apply Ascii.eqb_eq in E. tauto.
Qed.

Lemma rfind_char_last (c : ascii) (a b : list ascii) :
  ~ In c b -> Str.rfind_char c (a ++ c :: b) = Some (length a).
Proof.
  intros H. induction a as [|x a IH]; simpl.
  - rewrite rfind_char_none by assumption.
    rewrite Ascii.eqb_refl. reflexivity.
  - rewrite IH. reflexivity.
Qed.

(* ================================================================= *)
(** ** pathlib: lemmas *)

Lemma keep_component_iff (x : list ascii) :
  PurePath.keep_component x = true <-> x <> [] /\ x <> [PurePath.dot].
Proof.
  unfold PurePath.keep_component.
  rewrite andb_true_iff, !negb_true_iff, !str_eqb_neq. tauto.
Qed.

Lemma components_ok (rel : list ascii) :
  Forall comp_ok (PurePath.components rel).
Proof.
  unfold PurePath.components. apply Forall_forall. intros x Hx.
  apply filter_In in Hx. destruct Hx as [Hin Hk].
  apply keep_component_iff in Hk.
  pose proof (split_char_pieces PurePath.sep rel) as F.
  rewrite Forall_forall in F. unfold comp_ok. specialize (F x Hin). tauto.
Qed.

Lemma filter_keep_id (l : list (list ascii)) :
  Forall comp_ok l -> filter PurePath.keep_component l = l.
Proof.
  induction 1 as [|x l Hx F IH]; simpl; [reflexivity|].
  replace (PurePath.keep_component x) with true.
  - rewrite IH. reflexivity.
  - symmetry. apply keep_component_iff. unfold comp_ok in Hx. tauto.
Qed.

Lemma splitroot_anchor (s : list ascii) :
  fst (PurePath.splitroot s) = [] \/
  fst (PurePath.splitroot s) = [PurePath.sep] \/
  fst (PurePath.splitroot s) = [PurePath.sep; PurePath.sep].
Proof.
  unfold PurePath.splitroot. destruct s as [|a s]; [auto|].
  destruct (Ascii.eqb a PurePath.sep); [|auto].
  match goal with |- context [if ?b then _ else _] => destruct b end; auto.
Qed.

Lemma of_str_eq (s : list ascii) :
  s <> [] ->
  PurePath.of_str s =
  PurePath.mk (fst (PurePath.splitroot s))
              (PurePath.components (snd (PurePath.splitroot s))).
Proof.
  intros H. unfold PurePath.of_str. simpl.
  destruct s as [|a s]; [congruence|].
  destruct (PurePath.splitroot (a :: s)) as [root rel]. simpl.
  rewrite app_nil_r. reflexivity.
Qed.

Lemma of_str_ok (s : list ascii) : path_ok (PurePath.of_str s).
Proof.
  destruct s as [|a s].
  - split; simpl; auto.
  - rewrite of_str_eq by discriminate. split.
    + apply splitroot_anchor.
    + apply components_ok.
Qed.

Lemma join_sep_cons (x : list ascii) (l : list (list ascii)) :
  comp_ok x ->
  exists c rest, Str.join [PurePath.sep] (x :: l) = c :: rest /\ c <> PurePath.sep.
Proof.
  intros (Hne & _ & Hsep). destruct x as [|c x]; [congruence|].
  exists c. destruct l as [|y l]; simpl; eexists; (split; [reflexivity|]);
    intros ->; apply Hsep; left; reflexivity.
Qed.

Lemma components_join (l : list (list ascii)) :
  Forall comp_ok l ->
  PurePath.components (Str.join [PurePath.sep] l) = l.
Proof.
  intros F. destruct l as [|x l]; [reflexivity|].
  unfold PurePath.components.
  rewrite split_char_join.
  - apply filter_keep_id; assumption.
  - discriminate.
  - eapply Forall_impl; [|exact F]. unfold comp_ok. tauto.
Qed.

Lemma lstrip_join (l : list (list ascii)) :
  Forall comp_ok l ->
  Str.lstrip_char PurePath.sep (Str.join [PurePath.sep] l) =
  Str.join [PurePath.sep] l.
Proof.
  intros F. destruct l as [|x l]; [reflexivity|].
  inversion F; subst.
  destruct (join_sep_cons x l) as (c & rest & E & Hc); [assumption|].
  rewrite E. simpl.
  destruct (Ascii.eqb c PurePath.sep) eqn:Ec; [|reflexivity].
  apply Ascii.eqb_eq in Ec. congruence.
Qed.

Lemma to_str_anchor (R : list ascii) (N : list (list ascii)) :
  R <> [] ->
  PurePath.to_str (PurePath.mk R N) = R ++ Str.join [PurePath.sep] N.
Proof.
  intros H. unfold PurePath.to_str. cbn [PurePath.anchor PurePath.names].
  destruct R; [congruence | reflexivity].
Qed.

Lemma to_str_names (x : list ascii) (N : list (list ascii)) :
  comp_ok x ->
  PurePath.to_str (PurePath.mk [] (x :: N)) = Str.join [PurePath.sep] (x :: N).
Proof.
  intros Hx. destruct (join_sep_cons x N Hx) as (c & rest & E & _).
  unfold PurePath.to_str. cbn [PurePath.anchor PurePath.names app].
  rewrite E. reflexivity.
Qed.

(** Reading the text of a path gives the path back. *)
Lemma of_str_to_str (p : PurePath.t) :
  path_ok p -> PurePath.of_str (PurePath.to_str p) = p.
Proof.
  destruct p as [R N]. intros [HR F]. simpl in HR, F.
  destruct HR as [->|[->| ->]].
  - destruct N as [|x N]; [reflexivity|].
    inversion F as [|? ? Hx F']; subst.
    rewrite to_str_names by assumption.
    destruct (join_sep_cons x N Hx) as (c & rest & E & Hc).
    rewrite of_str_eq by (rewrite E; discriminate).
    assert (S : PurePath.splitroot (Str.join [PurePath.sep] (x :: N)) =
                ([], Str.join [PurePath.sep] (x :: N))).
    { rewrite E. unfold PurePath.splitroot.
      destruct (Ascii.eqb c PurePath.sep) eqn:Ec; [|reflexivity].
      apply Ascii.eqb_eq in Ec. congruence. }
    rewrite S. cbn [fst snd]. rewrite components_join by assumption.
    reflexivity.
  - rewrite to_str_anchor by discriminate.
    change ([PurePath.sep] ++ Str.join [PurePath.sep] N)
      with (PurePath.sep :: Str.join [PurePath.sep] N).
    rewrite of_str_eq by discriminate.
    assert (S : PurePath.splitroot (PurePath.sep :: Str.join [PurePath.sep] N) =
                ([PurePath.sep], Str.join [PurePath.sep] N)).
    { unfold PurePath.splitroot. rewrite Ascii.eqb_refl. cbv zeta.
      rewrite lstrip_char_same, lstrip_join by assumption.
      replace (length (PurePath.sep :: Str.join [PurePath.sep] N) -
               length (Str.join [PurePath.sep] N)) with 1
        by (cbn [length]; lia).
      reflexivity. }
    rewrite S. cbn [fst snd]. rewrite components_join by assumption.
    reflexivity.
  - rewrite to_str_anchor by discriminate.
    change ([PurePath.sep; PurePath.sep] ++ Str.join [PurePath.sep] N)
      with (PurePath.sep :: PurePath.sep :: Str.join [PurePath.sep] N).
    rewrite of_str_eq by discriminate.
    assert (S : PurePath.splitroot
                  (PurePath.sep :: PurePath.sep :: Str.join [PurePath.sep] N) =
                ([PurePath.sep; PurePath.sep], Str.join [PurePath.sep] N)).
    { unfold PurePath.splitroot. rewrite Ascii.eqb_refl. cbv zeta.
      rewrite !lstrip_char_same, lstrip_join by assumption.
      replace (length (PurePath.sep :: PurePath.sep :: Str.join [PurePath.sep] N) -
               length (Str.join [PurePath.sep] N)) with 2
        by (cbn [length]; lia).
      reflexivity. }
    rewrite S. cbn [fst snd]. rewrite components_join by assumption.
    reflexivity.
Qed.

Lemma stem_of_firstn (nm : list ascii) :
  firstn (length nm - length (PurePath.suffix_of nm)) nm = PurePath.stem_of nm.
Proof.
  unfold PurePath.suffix_of, PurePath.stem_of.
  destruct (Str.rfind_char PurePath.dot nm) as [i|].
  - destruct ((0 <? i) && (i <? length nm - 1)) eqn:C.
    + apply andb_true_iff in C. destruct C as [_ C].
      apply Nat.ltb_lt in C. rewrite length_skipn.
      f_equal. lia.
    + simpl length. rewrite Nat.sub_0_r. apply firstn_all.
  - simpl length. rewrite Nat.sub_0_r. apply firstn_all.
Qed.

Lemma stem_of_prefix (nm : list ascii) :
  exists rest, nm = PurePath.stem_of nm ++ rest.
Proof.
  rewrite <- stem_of_firstn.
  eexists. symmetry. apply firstn_skipn.
Qed.

Lemma stem_of_not_nil (nm : list ascii) :
  nm <> [] -> PurePath.stem_of nm <> [].
Proof.
  intros H. unfold PurePath.stem_of.
  destruct (Str.rfind_char PurePath.dot nm) as [i|]; [|assumption].
  destruct ((0 <? i) && (i <? length nm - 1)) eqn:C; [|assumption].
  apply andb_true_iff in C. destruct C as [C _]. apply Nat.ltb_lt in C.
  destruct nm; [congruence|]. destruct i; [lia|]. discriminate.
Qed.

Lemma stem_of_no_sep (nm : list ascii) :
  ~ In PurePath.sep nm -> ~ In PurePath.sep (PurePath.stem_of nm).
Proof.
  intros H Hin. destruct (stem_of_prefix nm) as [rest E].
  apply H. rewrite E. apply in_or_app. left. assumption.
Qed.

Lemma stem_of_fixed (st : list ascii) :
  PurePath.suffix_of st = [] -> PurePath.stem_of st = st.
Proof.
  unfold PurePath.suffix_of, PurePath.stem_of.
  destruct (Str.rfind_char PurePath.dot st) as [i|]; [|reflexivity].
  destruct ((0 <? i) && (i <? length st - 1)) eqn:C; [|reflexivity].
  intros E. apply andb_true_iff in C. destruct C as [_ C].
  apply Nat.ltb_lt in C.
  assert (L : length (skipn i st) = 0) by (rewrite E; reflexivity).
  rewrite length_skipn in L. lia.
Qed.

Lemma with_suffix_empty_nil (p : PurePath.t) :
  PurePath.names p = [] ->
  PurePath.with_suffix_empty p = Err (ValueError "has an empty name").
Proof.
  intros E. unfold PurePath.with_suffix_empty, PurePath.name.
  rewrite E. reflexivity.
Qed.

Lemma with_suffix_empty_last (p : PurePath.t) init nm :
  PurePath.names p = init ++ [nm] -> nm <> [] ->
  PurePath.with_suffix_empty p =
  Ok (PurePath.mk (PurePath.anchor p) (init ++ [PurePath.stem_of nm])).
Proof.
  intros E H. unfold PurePath.with_suffix_empty, PurePath.name.
  rewrite E, last_last, removelast_last.
  destruct nm as [|c nm]; [congruence|].
  cbv zeta.
  destruct (PurePath.suffix_of (c :: nm)) eqn:Es.
  - rewrite (stem_of_fixed _ Es). reflexivity.
  - rewrite <- Es, stem_of_firstn. reflexivity.
Qed.

Lemma comp_ok_stem (nm : list ascii) :
  comp_ok nm -> PurePath.stem_of nm <> [PurePath.dot] ->
  comp_ok (PurePath.stem_of nm).
Proof.
  intros (H1 & _ & H3) H. repeat split.
  - apply stem_of_not_nil; assumption.
  - assumption.
  - apply stem_of_no_sep; assumption.
Qed.

(* ================================================================= *)
(** ** Normalisation *)

Lemma no_suffix_str (s : list ascii) :
  _no_suffix (VStr s) =
  (p <- PurePath.with_suffix_empty (PurePath.of_str s) ;;
   Ok (VStr (PurePath.to_str p))).
Proof. reflexivity. Qed.

(** The claim of idempotence fails on a name with two suffixes: each call
    takes one suffix off. *)
Lemma no_suffix_twice_differs :
  normalize_twice "a.tar.gz" <> _no_suffix (VStr "a.tar.gz").
Proof. vm_compute. discriminate. Qed.

(** C2, amended.  [_no_suffix] applied twice gives what it gives applied
    once, for every path whose final name, its last suffix taken off, has no
    further suffix and is not a lone dot.  (On a path without a final name
    both sides raise the same [ValueError].) *)
Theorem no_suffix_idempotent (p : list ascii) :
  PurePath.suffix_of
    (PurePath.stem_of (PurePath.name (PurePath.of_str p))) = [] ->
  PurePath.stem_of (PurePath.name (PurePath.of_str p)) <> "." ->
  normalize_twice p = _no_suffix (VStr p).
Proof.
  intros Hsuf Hdot. unfold normalize_twice.
  pose proof (of_str_ok p) as [HR F].
  destruct (PurePath.of_str p) as [R N] eqn:EP. simpl in HR, F.
  destruct N as [|x N'] using rev_ind.
  - assert (E1 : _no_suffix (VStr p) = Err (ValueError "has an empty name")).
    { rewrite no_suffix_str, EP.
      rewrite with_suffix_empty_nil by reflexivity. reflexivity. }
    rewrite E1. reflexivity.
  - clear IHN'. apply Forall_app in F. destruct F as [F Fx].
    inversion Fx as [|? ? Hx _]; subst.
    unfold PurePath.name in Hsuf, Hdot. simpl PurePath.names in Hsuf, Hdot.
    rewrite last_last in Hsuf, Hdot.
    set (p' := PurePath.mk R (N' ++ [PurePath.stem_of x])).
    assert (W : PurePath.with_suffix_empty (PurePath.mk R (N' ++ [x])) = Ok p').
    { apply (with_suffix_empty_last (PurePath.mk R (N' ++ [x])) N' x);
        [reflexivity | apply Hx]. }
    assert (E1 : _no_suffix (VStr p) = Ok (VStr (PurePath.to_str p'))).
    { rewrite no_suffix_str, EP, W. reflexivity. }
    rewrite E1. cbn [bind]. rewrite no_suffix_str.
    assert (OK' : path_ok p').
    { split; [exact HR|]. simpl. apply Forall_app. split; [exact F|].
      constructor; [|constructor]. apply comp_ok_stem; assumption. }
    rewrite (of_str_to_str _ OK').
    rewrite (with_suffix_empty_last p' N' (PurePath.stem_of x));
      [| reflexivity | apply stem_of_not_nil, Hx].
    rewrite (stem_of_fixed _ Hsuf). reflexivity.
Qed.

Lemma no_suffix_idempotent_witness :
  normalize_twice "book/intro.md" = _no_suffix (VStr "book/intro.md").
Proof.
  apply (no_suffix_idempotent "book/intro.md").
  - reflexivity.
  - vm_compute. discriminate.
Defined.

Lemma components_app (a b : list ascii) :
  PurePath.components (a ++ PurePath.sep :: b) =
  PurePath.components a ++ PurePath.components b.
Proof.
  unfold PurePath.components. rewrite split_char_app. apply filter_app.
Qed.

Lemma components_name (x : list ascii) :
  comp_ok x -> PurePath.components x = [x].
Proof.
  intros Hx. unfold PurePath.components.
  rewrite split_char_no_sep by apply Hx.
  apply (filter_keep_id [x]). constructor; [assumption | constructor].
Qed.

Lemma dir_prefix_cases (d : list ascii) :
  dir_prefix d = true -> d = [] \/ exists d', d = d' ++ [PurePath.sep].
Proof.
  unfold dir_prefix. intros H.
  destruct d as [|a d] using rev_ind; [left; reflexivity|].
  right. rewrite rev_app_distr in H. simpl in H.
  apply Ascii.eqb_eq in H. subst. eauto.
Qed.

Lemma components_dir_name (r x : list ascii) :
  r = [] \/ (exists r', r = r' ++ [PurePath.sep]) -> comp_ok x ->
  PurePath.components (r ++ x) = PurePath.components r ++ [x].
Proof.
  intros [->|[r' ->]] Hx.
  - simpl. apply components_name; assumption.
  - rewrite <- app_assoc. simpl.
    rewrite !components_app, (components_name x) by assumption.
    change (PurePath.components []) with (@nil (list ascii)).
    rewrite app_nil_r. reflexivity.
Qed.

Lemma lstrip_dir (d' : list ascii) :
  Str.lstrip_char PurePath.sep (d' ++ [PurePath.sep]) = [] \/
  exists r', Str.lstrip_char PurePath.sep (d' ++ [PurePath.sep]) =
             r' ++ [PurePath.sep].
Proof.
  induction d' as [|a d' IH]; simpl.
  - left. reflexivity.
  - destruct (Ascii.eqb a PurePath.sep); [exact IH|].
    right. exists (a :: d'). reflexivity.
Qed.

Lemma splitroot_app (d x : list ascii) :
  d <> [] -> x <> [] -> hd PurePath.sep x <> PurePath.sep ->
  PurePath.splitroot (d ++ x) =
  (fst (PurePath.splitroot d), snd (PurePath.splitroot d) ++ x).
Proof.
  intros Hd Hx Hh. destruct d as [|a d]; [congruence|].
  unfold PurePath.splitroot.
  change ((a :: d) ++ x) with (a :: (d ++ x)). cbv beta iota.
  destruct (Ascii.eqb a PurePath.sep) eqn:Ea; [|reflexivity].
  cbv zeta. change (a :: (d ++ x)) with ((a :: d) ++ x).
  rewrite lstrip_char_app by assumption. rewrite !length_app.
  pose proof (lstrip_char_length PurePath.sep (a :: d)) as L.
  replace (length (a :: d) + length x -
           (length (Str.lstrip_char PurePath.sep (a :: d)) + length x))
    with (length (a :: d) - length (Str.lstrip_char PurePath.sep (a :: d)))
    by lia.
  destruct (length (a :: d) - length (Str.lstrip_char PurePath.sep (a :: d)) =? 2);
    reflexivity.
Qed.

Lemma splitroot_dir (d' : list ascii) :
  snd (PurePath.splitroot (d' ++ [PurePath.sep])) = [] \/
  exists r', snd (PurePath.splitroot (d' ++ [PurePath.sep])) =
             r' ++ [PurePath.sep].
Proof.
  unfold PurePath.splitroot.
  destruct (d' ++ [PurePath.sep]) as [|a l] eqn:E.
  - left. reflexivity.
  - destruct (Ascii.eqb a PurePath.sep).
    + cbv zeta. rewrite <- E.
      destruct (_ =? 2); cbn [snd]; apply lstrip_dir.
    + cbn [snd]. right. exists d'. congruence.
Qed.

(** The path of a name [x] behind a directory prefix [d]: the anchor and
    the components of [d], then [x]. *)
Lemma of_str_dir_name (d x : list ascii) :
  dir_prefix d = true -> comp_ok x ->
  PurePath.of_str (d ++ x) =
  PurePath.mk (fst (PurePath.splitroot d))
              (PurePath.components (snd (PurePath.splitroot d)) ++ [x]).
Proof.
  intros Hd Hx. pose proof Hx as (Hne & _ & Hsep).
  assert (Hhd : hd PurePath.sep x <> PurePath.sep).
  { destruct x as [|c x]; [congruence|]. simpl. intros ->.
    apply Hsep. left. reflexivity. }
  rewrite of_str_eq by (destruct d; [simpl; assumption | discriminate]).
  apply dir_prefix_cases in Hd.
  destruct Hd as [->|[d' ->]].
  - simpl app.
    assert (S : PurePath.splitroot x = ([], x)).
    { destruct x as [|c x]; [congruence|]. unfold PurePath.splitroot.
      simpl in Hhd. apply Ascii.eqb_neq in Hhd. rewrite Hhd. reflexivity. }
    rewrite S. cbn [fst snd].
    rewrite components_name by assumption. reflexivity.
  - rewrite splitroot_app; [| destruct d'; discriminate | assumption..].
    cbn [fst snd].
    rewrite components_dir_name; [reflexivity | | assumption].
    destruct (splitroot_dir d') as [E|E]; [left | right]; exact E.
Qed.

Lemma valid_suffix_inv (s : list ascii) :
  valid_suffix s = true ->
  exists body, s = PurePath.dot :: body /\ body <> [] /\
               ~ In PurePath.dot body /\ ~ In PurePath.sep body.
Proof.
  destruct s as [|d [|c rest]]; try discriminate.
  unfold valid_suffix. rewrite andb_true_iff, forallb_forall.
  intros [Hd Hall]. apply Ascii.eqb_eq in Hd. subst d.
  exists (c :: rest). repeat split; try discriminate.
  - intros Hin. apply Hall in Hin.
    rewrite Ascii.eqb_refl in Hin. discriminate.
  - intros Hin. apply Hall in Hin.
    rewrite Ascii.eqb_refl, andb_false_r in Hin. discriminate.
Qed.

Lemma no_sep_iff (s : list ascii) :
  no_sep s = true <-> ~ In PurePath.sep s.
Proof.
  unfold no_sep. rewrite forallb_forall. split.
  - intros H Hin. apply H in Hin. rewrite Ascii.eqb_refl in Hin. discriminate.
  - intros H x Hin. apply negb_true_iff, Ascii.eqb_neq. intros ->. tauto.
Qed.

Lemma stem_of_with_suffix (stem body : list ascii) :
  stem <> [] -> body <> [] -> ~ In PurePath.dot body ->
  PurePath.stem_of (stem ++ PurePath.dot :: body) = stem.
Proof.
  intros Hs Hb Hd. unfold PurePath.stem_of.
  rewrite rfind_char_last by assumption.
  replace ((0 <? length stem) &&
           (length stem <? length (stem ++ PurePath.dot :: body) - 1)) with true.
  - rewrite firstn_app, firstn_all, Nat.sub_diag. simpl. apply app_nil_r.
  - symmetry. apply andb_true_iff. rewrite !Nat.ltb_lt, length_app.
    destruct stem; [congruence|]. destruct body; [congruence|].
    simpl. lia.
Qed.

Lemma no_suffix_dir_stem (d stem s : list ascii) :
  dir_prefix d = true -> stem <> [] -> no_sep stem = true ->
  valid_suffix s = true ->
  _no_suffix (VStr (d ++ stem ++ s)) =
  Ok (VStr (PurePath.to_str
              (PurePath.mk (fst (PurePath.splitroot d))
                 (PurePath.components (snd (PurePath.splitroot d)) ++ [stem])))).
Proof.
  intros Hd Hne Hsep Hs.
  apply valid_suffix_inv in Hs. destruct Hs as (body & -> & Hb & Hbd & Hbs).
  apply no_sep_iff in Hsep.
  assert (Hx : comp_ok (stem ++ PurePath.dot :: body)).
  { repeat split.
    - destruct stem; discriminate.
    - destruct stem as [|c [|c' stem]]; [congruence| |discriminate].
      destruct body; [congruence | discriminate].
    - intros Hin. apply in_app_or in Hin. destruct Hin as [Hin|[Hin|Hin]].
      + tauto.
      + discriminate.
      + tauto. }
  rewrite no_suffix_str, (of_str_dir_name d _ Hd Hx).
  erewrite with_suffix_empty_last; [| reflexivity | apply Hx].
  rewrite stem_of_with_suffix by assumption. reflexivity.
Qed.

Lemma of_str_leading_seps (n : nat) (p : list ascii) :
  n <> 0 -> n <> 2 -> hd_error p <> Some PurePath.sep ->
  PurePath.of_str (repeat PurePath.sep n ++ p) =
  PurePath.mk [PurePath.sep] (PurePath.components p).
Proof.
  intros H0 H2 Hp. destruct n as [|n]; [congruence|].
  rewrite of_str_eq by discriminate.
  assert (S : PurePath.splitroot (repeat PurePath.sep (S n) ++ p) =
              ([PurePath.sep], p)).
  { unfold PurePath.splitroot.
    change (repeat PurePath.sep (S n) ++ p)
      with (PurePath.sep :: (repeat PurePath.sep n ++ p)).
    cbv beta iota. rewrite Ascii.eqb_refl. cbv zeta.
    change (PurePath.sep :: (repeat PurePath.sep n ++ p))
      with (repeat PurePath.sep (S n) ++ p).
    rewrite lstrip_char_repeat by assumption.
    rewrite length_app, repeat_length.
    replace (S n + length p - length p) with (S n) by lia.
    replace (S n =? 2) with false; [reflexivity|].
    symmetry. apply Nat.eqb_neq. assumption. }
  rewrite S. reflexivity.
Qed.

(** Against C6: a leading separator is the root of the path and stays. *)
Lemma no_suffix_keeps_leading_separator :
  _no_suffix (VStr "/a.md") <> _no_suffix (VStr "a.md").
Proof. vm_compute. discriminate. Qed.

(** C6, amended.  Two paths that differ only in the suffix after a non-empty
    final name have the same suffix-free path; and so have two paths that
    differ only in the number of their leading separators, when neither
    number is zero or two. *)
Theorem no_suffix_same_key :
  (forall d stem s1 s2 : list ascii,
     dir_prefix d = true -> stem <> [] -> no_sep stem = true ->
     valid_suffix s1 = true -> valid_suffix s2 = true ->
     _no_suffix (VStr (d ++ stem ++ s1)) = _no_suffix (VStr (d ++ stem ++ s2)))
  /\
  (forall (n m : nat) (p : list ascii),
     n <> 0 -> n <> 2 -> m <> 0 -> m <> 2 ->
     hd_error p <> Some PurePath.sep ->
     _no_suffix (VStr (repeat PurePath.sep n ++ p)) =
     _no_suffix (VStr (repeat PurePath.sep m ++ p))).
Proof.
  split.
  - intros d stem s1 s2 Hd Hne Hsep H1 H2.
    rewrite !no_suffix_dir_stem by assumption. reflexivity.
  - intros n m p Hn0 Hn2 Hm0 Hm2 Hp.
    rewrite !no_suffix_str, !of_str_leading_seps by assumption. reflexivity.
Qed.

Lemma no_suffix_same_key_witness :
  _no_suffix (VStr ("book/" ++ "intro" ++ ".md")) =
  _no_suffix (VStr ("book/" ++ "intro" ++ ".ipynb")) /\
  _no_suffix (VStr (repeat PurePath.sep 1 ++ "a.md")) =
  _no_suffix (VStr (repeat PurePath.sep 3 ++ "a.md")).
Proof.
  split.
  - apply (proj1 no_suffix_same_key "book/" "intro" ".md" ".ipynb");
      try reflexivity. discriminate.
  - apply (proj2 no_suffix_same_key 1 3 "a.md"); discriminate.
Defined.

(* ================================================================= *)
(** ** Lookup *)

(** Induction on a value, with the hypothesis on every item of a list and
    on every value of a dict. *)
Lemma pyval_nested_ind (P : pyval -> Prop) :
  P VNone -> (forall b, P (VBool b)) -> (forall n, P (VInt n)) ->
  (forall s, P (VStr s)) ->
  (forall items, Forall P items -> P (VList items)) ->
  (forall entries, Forall (fun kv => P (snd kv)) entries -> P (VDict entries)) ->
  forall v, P v.
Proof.
  intros HN HB HI HS HL HD.
  fix IH 1. intros [| b | n | s | items | entries].
  - exact HN.
  - apply HB.
  - apply HI.
  - apply HS.
  - apply HL.
    revert items. fix IHl 1. intros [|x items].
    + constructor.
    + constructor; [apply IH | apply IHl].
  - apply HD.
    revert entries. fix IHl 1. intros [|[k x] entries].
    + constructor.
    + constructor; [apply IH | apply IHl].
Qed.

Lemma dict_get_in (entries : list (list ascii * pyval)) key v :
  dict_get entries key = Some v -> In (key, v) entries.
Proof.
  induction entries as [|[k w] entries IH]; simpl; [discriminate|].
  destruct (Str.eqb k key) eqn:E.
  - intros H. inversion H; subst. apply str_eqb_eq in E. subst. auto.
  - auto.
Qed.

Lemma find_name_nil (name : list ascii) : find_name (VList []) name = Ok VNone.
Proof. reflexivity. Qed.

Lemma find_name_sections (name : list ascii) (entries : list (list ascii * pyval)) :
  (fix in_sections (es : list (list ascii * pyval)) : result pyval :=
     match es with
     | [] => Ok VNone
     | (k, v) :: es' =>
         if Str.eqb k "sections" then find_name v name else in_sections es'
     end) entries =
  find_name (dict_get_default entries "sections" (VList [])) name.
Proof.
  unfold dict_get_default.
  induction entries as [|[k v] entries IH]; [reflexivity|].
  cbn [dict_get]. destruct (Str.eqb k "sections"); [reflexivity | exact IH].
Qed.

Lemma find_name_dict (name : list ascii) (entries : list (list ascii * pyval)) :
  find_name (VDict entries) name = visit name (VDict entries) (Ok VNone).
Proof.
  unfold visit, page_path, page_sections.
  rewrite <- find_name_sections. reflexivity.
Qed.

Lemma find_name_cons (name : list ascii) (page : pyval) (rest : list pyval) :
  find_name (VList (page :: rest)) name =
  visit name page (find_name (VList rest) name).
Proof.
  destruct page; try reflexivity.
  unfold visit, page_path, page_sections.
  rewrite <- find_name_sections. reflexivity.
Qed.

Lemma visit_via_find (name : list ascii) (page : pyval) (next : result pyval) :
  is_dict page = true ->
  visit name page next =
  (r <- find_name page name ;;
   match r with
   | VNone => next
   | _ => Ok r
   end).
Proof.
  destruct page as [| | | | |entries]; try discriminate. intros _.
  rewrite find_name_dict. unfold visit.
  destruct (_no_suffix (page_path (VDict entries))) as [key|e]; [|reflexivity].
  cbn [bind]. destruct (py_eq_str key name); [reflexivity|].
  destruct (find_name (page_sections (VDict entries)) name) as [found|e];
    [|reflexivity].
  cbn [bind]. destruct found; reflexivity.
Qed.

Lemma nodes_sections (entries : list (list ascii * pyval)) :
  (fix in_sections (es : list (list ascii * pyval)) : list pyval :=
     match es with
     | [] => []
     | (k, v) :: es' =>
         if Str.eqb k "sections" then nodes v else in_sections es'
     end) entries =
  nodes (dict_get_default entries "sections" (VList [])).
Proof.
  unfold dict_get_default.
  induction entries as [|[k v] entries IH]; [reflexivity|].
  cbn [dict_get]. destruct (Str.eqb k "sections"); [reflexivity | exact IH].
Qed.

Lemma nodes_dict (entries : list (list ascii * pyval)) :
  nodes (VDict entries) = VDict entries :: nodes (page_sections (VDict entries)).
Proof.
  unfold page_sections. rewrite <- nodes_sections. reflexivity.
Qed.

Lemma nodes_cons (page : pyval) (rest : list pyval) :
  nodes (VList (page :: rest)) = nodes page ++ nodes (VList rest).
Proof. reflexivity. Qed.

Lemma well_formed_sections (entries : list (list ascii * pyval)) :
  (fix in_sections (es : list (list ascii * pyval)) : bool :=
     match es with
     | [] => true
     | (k, v) :: es' =>
         if Str.eqb k "sections" then well_formed v else in_sections es'
     end) entries =
  well_formed (dict_get_default entries "sections" (VList [])).
Proof.
  unfold dict_get_default.
  induction entries as [|[k v] entries IH]; [reflexivity|].
  cbn [dict_get]. destruct (Str.eqb k "sections"); [reflexivity | exact IH].
Qed.

Lemma well_formed_dict (entries : list (list ascii * pyval)) :
  well_formed (VDict entries) =
  is_ok (_no_suffix (page_path (VDict entries))) &&
  well_formed (page_sections (VDict entries)).
Proof.
  unfold page_sections, page_path. rewrite <- well_formed_sections. reflexivity.
Qed.

Lemma well_formed_cons (page : pyval) (rest : list pyval) :
  well_formed (VList (page :: rest)) =
  is_dict page && well_formed page && well_formed (VList rest).
Proof. reflexivity. Qed.

(** The sections of a dict are one of its values, or the empty list. *)
Lemma sections_cases (entries : list (list ascii * pyval)) :
  page_sections (VDict entries) = VList [] \/
  In ("sections" : list ascii, page_sections (VDict entries)) entries.
Proof.
  unfold page_sections, dict_get_default.
  destruct (dict_get entries "sections") as [v|] eqn:E; [|auto].
  right. apply dict_get_in. assumption.
Qed.

Lemma nodes_are_dicts (pages : pyval) :
  Forall (fun n => is_dict n = true) (nodes pages).
Proof.
  induction pages as [| | | | items IH | entries IH] using pyval_nested_ind;
    try solve [constructor].
  - induction IH as [|x items Hx _ IHl]; [constructor|].
    rewrite nodes_cons. apply Forall_app. auto.
  - rewrite nodes_dict. constructor; [reflexivity|].
    destruct (sections_cases entries) as [E|Hin].
    + rewrite E. constructor.
    + rewrite Forall_forall in IH. apply (IH _ Hin).
Qed.

Lemma find_app_or_none {A} (f : A -> bool) (a b : list A) :
  find f (a ++ b) = match find f a with
                    | Some x => Some x
                    | None => find f b
                    end.
Proof.
  induction a as [|x a IH]; simpl; [reflexivity|].
  destruct (f x); [reflexivity | exact IH].
Qed.

Lemma matches_dict (name : list ascii) (entries : list (list ascii * pyval)) key :
  _no_suffix (page_path (VDict entries)) = Ok key ->
  matches name (VDict entries) = py_eq_str key name.
Proof.
  intros E. unfold matches, page_key. rewrite E.
  destruct key; reflexivity.
Qed.

(** [find_name] returns the first node, a page before its sections and the
    sections in order, whose suffix-free path is the name looked for, and
    [None] when there is no such node. *)
Lemma find_name_first_match (pages : pyval) :
  forall name, well_formed pages = true ->
  find_name pages name = Ok (or_none (find (matches name) (nodes pages))).
Proof.
  induction pages as [| | | | items IH | entries IH] using pyval_nested_ind;
    intros name WF; try discriminate.
  - induction IH as [|x items Hx _ IHl]; [reflexivity|].
    rewrite well_formed_cons in WF.
    apply andb_true_iff in WF. destruct WF as [WF WFr].
    apply andb_true_iff in WF. destruct WF as [Dx WFx].
    rewrite find_name_cons, visit_via_find by assumption.
    rewrite (Hx name WFx), (IHl WFr). cbn [bind].
    rewrite nodes_cons, find_app_or_none.
    destruct (find (matches name) (nodes x)) as [n|] eqn:E; [|reflexivity].
    apply find_some in E. destruct E as [Hin _].
    pose proof (nodes_are_dicts x) as D. rewrite Forall_forall in D.
    apply D in Hin. destruct n; try discriminate. reflexivity.
  - rewrite well_formed_dict in WF.
    apply andb_true_iff in WF. destruct WF as [WP WS].
    rewrite find_name_dict, nodes_dict. unfold visit.
    destruct (_no_suffix (page_path (VDict entries))) as [key|e] eqn:EK;
      [|discriminate].
    cbn [bind find]. rewrite (matches_dict name entries key EK).
    destruct (py_eq_str key name); [reflexivity|].
    assert (HS : find_name (page_sections (VDict entries)) name =
                 Ok (or_none (find (matches name)
                                   (nodes (page_sections (VDict entries)))))).
    { destruct (sections_cases entries) as [E|Hin].
      - rewrite E. reflexivity.
      - rewrite Forall_forall in IH. apply (IH _ Hin name WS). }
    rewrite HS. cbn [bind].
    destruct (find (matches name) (nodes (page_sections (VDict entries))))
      as [n|] eqn:E; [|reflexivity].
    apply find_some in E. destruct E as [Hin _].
    pose proof (nodes_are_dicts (page_sections (VDict entries))) as D.
    rewrite Forall_forall in D.
    apply D in Hin. destruct n; try discriminate. reflexivity.
Qed.

Lemma existsb_str_in (x : list ascii) (l : list (list ascii)) :
  existsb (Str.eqb x) l = true <-> In x l.
Proof.
  rewrite existsb_exists. split.
  - intros (y & Hin & E). apply str_eqb_eq in E. subst. assumption.
  - intros Hin. exists x. split; [assumption | apply str_eqb_refl].
Qed.

Lemma distinct_NoDup (l : list (list ascii)) :
  distinct l = true -> NoDup l.
Proof.
  induction l as [|x l IH]; simpl; [constructor|].
  rewrite andb_true_iff, negb_true_iff. intros [Hx Hl].
  constructor; [|auto].
  intros Hin. apply existsb_str_in in Hin. congruence.
Qed.

Lemma key_in_keys (l : list pyval) (n : pyval) (k : list ascii) :
  In n l -> page_key n = Some k ->
  In k (flat_map (fun n => match page_key n with
                           | Some k => [k]
                           | None => []
                           end) l).
Proof.
  intros Hin Hk. apply in_flat_map. exists n. split; [assumption|].
  rewrite Hk. left. reflexivity.
Qed.

Lemma find_by_key (l : list pyval) (n : pyval) (k : list ascii) :
  NoDup (flat_map (fun n => match page_key n with
                            | Some k => [k]
                            | None => []
                            end) l) ->
  In n l -> page_key n = Some k ->
  find (matches k) l = Some n.
Proof.
  induction l as [|x l IH]; simpl; intros ND Hin Hk; [contradiction|].
  unfold matches at 1.
  destruct (page_key x) as [kx|] eqn:Ex.
  - simpl in ND. inversion ND as [|? ? Hnot ND']; subst.
    destruct (Str.eqb kx k) eqn:E.
    + apply str_eqb_eq in E. subst kx.
      destruct Hin as [->|Hin]; [reflexivity|].
      exfalso. apply Hnot. eapply key_in_keys; eassumption.
    + destruct Hin as [->|Hin].
      * rewrite Hk in Ex. inversion Ex; subst.
        rewrite str_eqb_refl in E. discriminate.
      * apply IH; assumption.
  - simpl in ND. destruct Hin as [->|Hin]; [congruence|].
    apply IH; assumption.
Qed.

Lemma find_no_key (l : list pyval) (k : list ascii) :
  existsb (Str.eqb k)
          (flat_map (fun n => match page_key n with
                              | Some k => [k]
                              | None => []
                              end) l) = false ->
  find (matches k) l = None.
Proof.
  induction l as [|x l IH]; simpl; intros H; [reflexivity|].
  rewrite existsb_app, orb_false_iff in H. destruct H as [Hx Hl].
  unfold matches at 1. destruct (page_key x) as [kx|].
  - simpl in Hx. rewrite orb_false_r in Hx.
    replace (Str.eqb kx k) with false; [auto|].
    symmetry. apply str_eqb_neq. intros ->.
    rewrite str_eqb_refl in Hx. discriminate.
  - auto.
Qed.

(** Against C3: a node is not found under its own path as the manifest
    gives it when that path still has a suffix to lose, since [find_name]
    compares the suffix-free path of the node with the name as it is. *)
Lemma find_name_raw_path_misses :
  let T := VDict [("path" : list ascii, VStr "notes.v2")] in
  nodes T = [T] /\ page_path T = VStr "notes.v2" /\
  find_name T "notes.v2" = Ok VNone.
Proof. vm_compute. auto. Qed.

(** C3, amended.  In a tree [find_name] walks without an exception, the
    result is the first node in pre-order, sections from left to right,
    whose suffix-free path is the name; and when the suffix-free paths of
    the nodes differ from one another, every node is found under its own
    suffix-free path. *)
Theorem find_name_finds_node (T : pyval) :
  well_formed T = true ->
  (forall name,
     find_name T name = Ok (or_none (find (matches name) (nodes T)))) /\
  (distinct (keys T) = true ->
   forall n k, In n (nodes T) -> page_key n = Some k ->
               find_name T k = Ok n).
Proof.
  intros WF. split.
  - intros name. apply find_name_first_match. assumption.
  - intros D n k Hin Hk.
    rewrite find_name_first_match by assumption.
    rewrite (find_by_key (nodes T) n k); auto.
    apply distinct_NoDup. exact D.
Qed.

Lemma find_name_finds_node_witness :
  let page := VDict [("path" : list ascii, VStr "part/page.ipynb")] in
  let T := VDict [("path" : list ascii, VStr "index.md");
                  ("sections" : list ascii,
                   VList [VDict [("path" : list ascii, VStr "intro.md")]; page])] in
  find_name T "part/page" = Ok page.
Proof.
  intros page T.
  apply (proj2 (find_name_finds_node T eq_refl) eq_refl page "part/page").
  - simpl. auto.
  - reflexivity.
Defined.

Lemma startswith_app (s t : list ascii) : Str.startswith s (s ++ t) = true.
Proof.
  induction s as [|a s IH]; simpl; [reflexivity|].
  rewrite Ascii.eqb_refl. exact IH.
Qed.

Lemma contains_startswith (sub s : list ascii) :
  Str.startswith sub s = true -> Str.contains sub s = true.
Proof. intros H. destruct s; simpl; rewrite H; reflexivity. Qed.

Lemma contains_app_l (sub a s : list ascii) :
  Str.contains sub s = true -> Str.contains sub (a ++ s) = true.
Proof.
  intros H. induction a as [|x a IH]; simpl; [assumption|].
  rewrite IH. apply orb_true_r.
Qed.

Lemma message_names_path (path : list ascii) :
  Str.contains path (page_not_found_message path) = true.
Proof.
  unfold page_not_found_message.
  do 2 apply contains_app_l.
  apply contains_startswith, startswith_app.
Qed.

Lemma message_names_manifest (path : list ascii) :
  Str.contains "_toc.yml" (page_not_found_message path) = true.
Proof.
  unfold page_not_found_message.
  do 5 apply contains_app_l. reflexivity.
Qed.

(** Against C7: a node whose path has no final name makes the lookup raise
    [ValueError] for a name that no node has. *)
Lemma find_name_raises_on_nameless_path :
  let T := VDict [("path" : list ascii, VStr "index");
                  ("sections" : list ascii,
                   VList [VDict [("path" : list ascii, VStr ".")]])] in
  keys T = ["index" : list ascii] /\
  find_name T "missing" = Err (ValueError "has an empty name").
Proof. vm_compute. auto. Qed.

(** C7, amended.  In a tree [find_name] walks without an exception, a name
    that is the suffix-free path of no node gives [None]; and [add_toctree]
    turns a [None] for the page it was called for into a [FileNotFoundError]
    whose message holds the path of the page and the name [_toc.yml]. *)
Theorem find_name_miss :
  (forall T key,
     well_formed T = true ->
     existsb (Str.eqb key) (keys T) = false ->
     find_name T key = Ok VNone) /\
  (forall doc2path os_path_relpath py_format (cell : Type)
          (nbf_reads : list ascii -> result (notebook cell))
          nbf_new_markdown_cell nbf_writes cfg docname source key,
     truthy (globaltoc_path cfg) = true ->
     _no_suffix (VStr (doc2path docname)) = Ok (VStr key) ->
     find_name (globaltoc cfg) key = Ok VNone ->
     add_toctree doc2path os_path_relpath py_format cell nbf_reads
                 nbf_new_markdown_cell nbf_writes cfg docname source =
     Err (FileNotFoundError (page_not_found_message (doc2path docname))) /\
     Str.contains (doc2path docname)
                  (page_not_found_message (doc2path docname)) = true /\
     Str.contains "_toc.yml"
                  (page_not_found_message (doc2path docname)) = true).
Proof.
  split.
  - intros T key WF H.
    rewrite find_name_first_match by assumption.
    unfold keys in H. rewrite (find_no_key _ _ H). reflexivity.
  - intros doc2path os_path_relpath py_format cell nbf_reads
           nbf_new_markdown_cell nbf_writes cfg docname source key HT HK HF.
    split; [|split].
    + unfold add_toctree. rewrite HT. cbn [negb]. cbv zeta.
      rewrite HK. cbn [bind]. rewrite HF. reflexivity.
    + apply message_names_path.
    + apply message_names_manifest.
Qed.

Lemma find_name_miss_witness :
  let T := VDict [("path" : list ascii, VStr "index.md");
                  ("sections" : list ascii,
                   VList [VDict [("path" : list ascii, VStr "intro.md")]])] in
  find_name T "appendix" = Ok VNone /\
  add_toctree (fun docname => docname ++ ".md") (fun _ _ => Err TypeError)
              (fun _ => []) unit (fun _ => Err TypeError) (fun _ => tt)
              (fun _ => [])
              (mkConfig (VStr "_toc.yml") T VNone) "appendix" "text" =
  Err (FileNotFoundError (page_not_found_message "appendix.md")).
Proof.
  intros T. split.
  - apply (proj1 find_name_miss T "appendix"); reflexivity.
  - apply (proj2 find_name_miss (fun docname => docname ++ ".md")
             (fun _ _ => Err TypeError) (fun _ => []) unit
             (fun _ => Err TypeError) (fun _ => tt) (fun _ => [])
             (mkConfig (VStr "_toc.yml") T VNone) "appendix" "text" "appendix");
      reflexivity.
Defined.

(* ================================================================= *)
(** ** The hooks *)

Lemma dict_get_set_same (entries : list (list ascii * pyval)) key v :
  dict_get (dict_set entries key v) key = Some v.
Proof.
  induction entries as [|[k w] entries IH]; simpl.
  - rewrite str_eqb_refl. reflexivity.
  - destruct (Str.eqb k key) eqn:E; simpl; rewrite E; [reflexivity | exact IH].
Qed.

Lemma dict_get_set_other (entries : list (list ascii * pyval)) key key' v :
  Str.eqb key key' = false ->
  dict_get (dict_set entries key v) key' = dict_get entries key'.
Proof.
  intros N. induction entries as [|[k w] entries IH]; simpl.
  - rewrite N. reflexivity.
  - destruct (Str.eqb k key) eqn:E; simpl.
    + apply str_eqb_eq in E. subst k. rewrite N. reflexivity.
    + destruct (Str.eqb k key'); [reflexivity | exact IH].
Qed.

(** C4.  When the manifest is a list whose first record has a path with a
    final name, [update_indexname] makes that record the root of
    [globaltoc]: every key but [sections] keeps the value of the record,
    [sections] holds the records after the first when there are some, and
    otherwise what the record declared; [master_doc] is the suffix-free
    path of the record. *)
Theorem update_indexname_root :
  forall (read_manifest : pyval -> result pyval) cfg entries rest path master,
    truthy (globaltoc_path cfg) = true ->
    read_manifest (globaltoc_path cfg) = Ok (VList (VDict entries :: rest)) ->
    dict_get entries "path" = Some path ->
    _no_suffix path = Ok master ->
    exists root,
      update_indexname read_manifest cfg =
      Ok (mkConfig (globaltoc_path cfg) (VDict root) master) /\
      (forall key, Str.eqb "sections" key = false ->
                   dict_get root key = dict_get entries key) /\
      (rest <> [] -> dict_get root "sections" = Some (VList rest)) /\
      (rest = [] -> root = entries).
Proof.
  intros read_manifest cfg entries rest path master HT HR HP HM.
  unfold update_indexname. rewrite HT, HR. cbn [negb bind].
  destruct rest as [|second rest].
  - exists entries. cbn [toc_of_manifest bind py_getitem].
    rewrite HP. cbn [bind]. rewrite HM. cbn [bind].
    repeat split; congruence.
  - exists (dict_set entries "sections" (VList (second :: rest))).
    cbn [toc_of_manifest py_setitem bind py_getitem].
    rewrite dict_get_set_other by reflexivity.
    rewrite HP. cbn [bind]. rewrite HM. cbn [bind].
    repeat split.
    + intros key N. apply dict_get_set_other. assumption.
    + intros _. apply dict_get_set_same.
    + discriminate.
Qed.

Lemma update_indexname_root_witness :
  exists root,
    update_indexname
      (fun _ => Ok (VList [VDict [("path" : list ascii, VStr "index.md");
                                  ("sections" : list ascii, VList [])];
                           VDict [("path" : list ascii, VStr "intro.md")]]))
      (mkConfig (VStr "_toc.yml") VNone VNone) =
    Ok (mkConfig (VStr "_toc.yml") (VDict root) (VStr "index")) /\
    dict_get root "sections" =
    Some (VList [VDict [("path" : list ascii, VStr "intro.md")]]).
Proof.
  destruct (update_indexname_root
              (fun _ => Ok (VList [VDict [("path" : list ascii, VStr "index.md");
                                          ("sections" : list ascii, VList [])];
                                   VDict [("path" : list ascii, VStr "intro.md")]]))
              (mkConfig (VStr "_toc.yml") VNone VNone)
              [("path" : list ascii, VStr "index.md");
               ("sections" : list ascii, VList [])]
              [VDict [("path" : list ascii, VStr "intro.md")]]
              (VStr "index.md") (VStr "index")
              eq_refl eq_refl eq_refl eq_refl)
    as (root & H1 & _ & H3 & _).
  exists root. split; [exact H1 | apply H3; discriminate].
Defined.

(** C9.  Once [add_toctree] has a toctree to write, what it does depends on
    the suffix of the document alone: for [.md] the toctree and a newline
    go behind the source; for [.ipynb] the source is read as a notebook, a
    markdown cell with the toctree goes behind its cells and the notebook is
    written out again; for any other suffix a [ValueError] is raised. *)
Theorem add_toctree_dispatch :
  forall doc2path os_path_relpath py_format (cell : Type)
         (nbf_reads : list ascii -> result (notebook cell))
         nbf_new_markdown_cell nbf_writes cfg docname source key page toctree,
    truthy (globaltoc_path cfg) = true ->
    _no_suffix (VStr (doc2path docname)) = Ok (VStr key) ->
    find_name (globaltoc cfg) key = Ok page ->
    is_dict page = true ->
    page_toctree os_path_relpath py_format page = Ok (Some toctree) ->
    let suff := PurePath.suffix (PurePath.of_str (doc2path docname)) in
    let result :=
      add_toctree doc2path os_path_relpath py_format cell nbf_reads
                  nbf_new_markdown_cell nbf_writes cfg docname source in
    (suff = ".md" -> result = Ok (source ++ toctree ++ [ascii_of_nat 10])) /\
    (suff = ".ipynb" ->
     result =
     (ntbk <- nbf_reads source ;;
      Ok (nbf_writes (mkNotebook (cells ntbk ++ [nbf_new_markdown_cell toctree])
                                 (nb_other ntbk))))) /\
    (suff <> ".md" -> suff <> ".ipynb" ->
     result = Err (ValueError "Only markdown and ipynb files are supported.")).
Proof.
  intros doc2path os_path_relpath py_format cell nbf_reads
         nbf_new_markdown_cell nbf_writes cfg docname source key page toctree
         HT HK HF HD HP suff result.
  assert (E : result =
              inject cell nbf_reads nbf_new_markdown_cell nbf_writes
                     suff toctree source).
  { unfold result, add_toctree. rewrite HT. cbn [negb]. cbv zeta.
    rewrite HK. cbn [bind]. rewrite HF. cbn [bind].
    destruct page; try discriminate. rewrite HP. reflexivity. }
  rewrite E. unfold inject. repeat split.
  - intros ->. reflexivity.
  - intros ->. reflexivity.
  - intros N1 N2. apply str_eqb_neq in N1, N2. rewrite N1, N2. reflexivity.
Qed.

Lemma add_toctree_dispatch_witness :
  let T := VDict [("path" : list ascii, VStr "index");
                  ("sections" : list ascii,
                   VList [VDict [("path" : list ascii, VStr "intro")]])] in
  let cfg := mkConfig (VStr "_toc.yml") T VNone in
  let relpath := fun (p : pyval) (_ : list ascii) =>
                   match p with VStr s => Ok s | _ => Err TypeError end in
  let format := fun v => match v with VStr s => s | _ => [] end in
  let reads := fun s : list ascii => Ok (mkNotebook [s] VNone) in
  let writes := fun nb : notebook (list ascii) => Str.join "|" (cells nb) in
  let run := add_toctree (fun d => d) relpath format (list ascii) reads
                         (fun t => t) writes cfg in
  let toctree := toctree_text [] "intro" in
  run "index.md" "text" = Ok ("text" ++ toctree ++ [ascii_of_nat 10]) /\
  run "index.ipynb" "text" = Ok ("text" ++ "|" ++ toctree) /\
  run "index.rst" "text" =
  Err (ValueError "Only markdown and ipynb files are supported.").
Proof.
  intros T cfg relpath format reads writes run toctree.
  split; [|split].
  - apply (proj1 (add_toctree_dispatch (fun d => d) relpath format (list ascii)
                    reads (fun t => t) writes cfg "index.md" "text" "index" T
                    toctree eq_refl eq_refl eq_refl eq_refl eq_refl)).
    reflexivity.
  - apply (proj1 (proj2 (add_toctree_dispatch (fun d => d) relpath format
                           (list ascii) reads (fun t => t) writes cfg
                           "index.ipynb" "text" "index" T
                           toctree eq_refl eq_refl eq_refl eq_refl eq_refl))).
    reflexivity.
  - apply (proj2 (proj2 (add_toctree_dispatch (fun d => d) relpath format
                           (list ascii) reads (fun t => t) writes cfg
                           "index.rst" "text" "index" T
                           toctree eq_refl eq_refl eq_refl eq_refl eq_refl)));
      vm_compute; discriminate.
Defined.

(* ================================================================= *)
(** ** Generating a table of contents *)

(** C5: the files are not sorted.  [_list_supported_files] goes through
    the suffixes in the order of [SUPPORTED_FILE_SUFFIXES] and, for one
    suffix, through the directory in the order it is listed: [b.ipynb]
    comes before [a.md] however the directory lists them, and [b.md] before
    [a.md] when the directory lists them so. *)
Lemma build_toc_files_not_sorted :
  toc_pages (PurePath.of_str "root")
            (Dir [("a.md" : list ascii, File); ("b.ipynb" : list ascii, File)])
            "_" =
  Ok [path_record "b"; path_record "a"] /\
  toc_pages (PurePath.of_str "root")
            (Dir [("b.ipynb" : list ascii, File); ("a.md" : list ascii, File)])
            "_" =
  Ok [path_record "b"; path_record "a"] /\
  toc_pages (PurePath.of_str "root")
            (Dir [("b.md" : list ascii, File); ("a.md" : list ascii, File)])
            "_" =
  Ok [path_record "b"; path_record "a"].
Proof. repeat split; vm_compute; reflexivity. Qed.

Lemma joined_chars_cons2 (a b : ascii) (s : list ascii) :
  Str.join [ascii_of_nat 10] (Str.chars (a :: b :: s)) =
  a :: ascii_of_nat 10 :: Str.join [ascii_of_nat 10] (Str.chars (b :: s)).
Proof. reflexivity. Qed.

Lemma startswith_one (p1 p2 a : ascii) (ps : list ascii) :
  Str.startswith (p1 :: p2 :: ps) [a] = false.
Proof. cbn [Str.startswith]. apply andb_false_r. Qed.

Lemma startswith_second (p1 p2 a c : ascii) (ps rest : list ascii) :
  Ascii.eqb p2 c = false ->
  Str.startswith (p1 :: p2 :: ps) (a :: c :: rest) = false.
Proof.
  intros E. cbn [Str.startswith]. rewrite E. cbn [andb]. apply andb_false_r.
Qed.

Lemma break_line_cons :
  BREAK_LINE = "-"%char :: " "%char :: list_ascii_of_string "'## REPLACE ##'".
Proof. reflexivity. Qed.

(** A text with a newline between any two of its characters holds no break
    line. *)
Lemma no_break_line_in_joined (s : list ascii) :
  Str.contains BREAK_LINE (Str.join [ascii_of_nat 10] (Str.chars s)) = false.
Proof.
  induction s as [|a s IH]; [reflexivity|].
  destruct s as [|b s].
  - change (Str.join [ascii_of_nat 10] (Str.chars [a])) with [a].
    cbn [Str.contains]. rewrite break_line_cons at 1.
    rewrite startswith_one. reflexivity.
  - rewrite joined_chars_cons2.
    set (rest := Str.join [ascii_of_nat 10] (Str.chars (b :: s))) in *.
    cbn [Str.contains]. rewrite IH.
    rewrite break_line_cons at 1.
    rewrite startswith_second by reflexivity.
    assert (E2 : Str.startswith BREAK_LINE (ascii_of_nat 10 :: rest) = false)
      by reflexivity.
    rewrite E2. reflexivity.
Qed.

(** Against C1: the header made for the directory [02_data] is [Data]; no
    record is labelled [Intro]. *)
Lemma build_toc_example_no_intro_header :
  exists pages,
    toc_pages (PurePath.of_str "root") example_layout "_" = Ok pages /\
    ~ In (header_record "Intro") pages.
Proof.
  eexists. split; [vm_compute; reflexivity|].
  simpl. intuition discriminate.
Qed.

(** C1, amended.  For the folder [root] with [01_intro.md] and
    [02_data/{a.md, b.md}], listed in this order, the records of
    [build_toc(root, "_")] are, in order: the record of [01_intro], the break
    marker, the header [Data], the records of [02_data/a] and [02_data/b];
    and when the shell the function opens has returned, the text handed back
    holds no break line. *)
Theorem build_toc_example :
  toc_pages (PurePath.of_str "root") example_layout "_" =
  Ok [path_record "01_intro"; VStr BREAK_MARKER; header_record "Data";
      url_record "02_data/a"; url_record "02_data/b"] /\
  forall yaml_safe_dump,
  exists text,
    build_toc yaml_safe_dump (Ok tt) (Some example_layout) "root" "_" = Ok text /\
    Str.contains BREAK_LINE text = false.
Proof.
  assert (E : toc_pages (PurePath.of_str "root") example_layout "_" =
              Ok [path_record "01_intro"; VStr BREAK_MARKER; header_record "Data";
                  url_record "02_data/a"; url_record "02_data/b"])
    by (vm_compute; reflexivity).
  split; [exact E|].
  intros yaml_safe_dump. eexists. split.
  - unfold build_toc, example_layout in *. rewrite E. cbn [bind]. reflexivity.
  - apply no_break_line_in_joined.
Qed.

Lemma map_result_ok {A B} (f : A -> result B) (l : list A) :
  (forall x, In x l -> exists y, f x = Ok y) ->
  exists ys, map_result f l = Ok ys.
Proof.
  induction l as [|x l IH]; intros H; simpl.
  - eauto.
  - destruct (H x) as [y Ey]; [left; reflexivity|].
    destruct IH as [ys Eys]; [intros; apply H; right; assumption|].
    rewrite Ey, Eys. simpl. eauto.
Qed.

Lemma map_result_cons {A B} (f : A -> result B) x (l : list A) zs :
  map_result f (x :: l) = Ok zs ->
  exists y ys, f x = Ok y /\ map_result f l = Ok ys /\ zs = y :: ys.
Proof.
  simpl. destruct (f x) as [y|e]; [|discriminate]. simpl.
  destruct (map_result f l) as [ys|e]; [|discriminate]. simpl.
  intros H. inversion H. eauto.
Qed.

Lemma map_result_in {A B} (f : A -> result B) (l : list A) ys x :
  map_result f l = Ok ys -> In x l -> exists y, f x = Ok y /\ In y ys.
Proof.
  revert ys. induction l as [|a l IH]; intros ys E Hin; [contradiction|].
  apply map_result_cons in E. destruct E as (y & ys' & Ey & Eys & ->).
  destruct Hin as [->|Hin].
  - exists y. split; [assumption | left; reflexivity].
  - destruct (IH ys' Eys Hin) as (y' & E' & Hy'). exists y'.
    split; [assumption | right; assumption].
Qed.

Lemma map_result_in_inv {A B} (f : A -> result B) (l : list A) ys y :
  map_result f l = Ok ys -> In y ys -> exists x, In x l /\ f x = Ok y.
Proof.
  revert ys. induction l as [|a l IH]; intros ys E Hin.
  - simpl in E. inversion E; subst. contradiction.
  - apply map_result_cons in E. destruct E as (y0 & ys' & Ey & Eys & ->).
    destruct Hin as [<-|Hin].
    + exists a. split; [left; reflexivity | assumption].
    + destruct (IH ys' Eys Hin) as (x & Hx & Ex). exists x.
      split; [right; assumption | assumption].
Qed.

Lemma name_child (d : PurePath.t) (nm : list ascii) :
  PurePath.name (PurePath.child d nm) = nm.
Proof. unfold PurePath.name, PurePath.child. simpl. apply last_last. Qed.

Lemma endswith_not_nil (suffix nm : list ascii) :
  suffix <> [] -> Str.endswith suffix nm = true -> nm <> [].
Proof.
  intros Hs H ->. unfold Str.endswith in H. simpl in H.
  destruct (rev suffix) eqn:E; [|discriminate].
  apply (f_equal (@rev ascii)) in E. rewrite rev_involutive in E.
  simpl in E. congruence.
Qed.

Lemma glob_suffix_name (d : PurePath.t) (node : fsnode) suffix ipath :
  In ipath (glob_suffix d node suffix) ->
  Str.endswith suffix (PurePath.name ipath) = true.
Proof.
  unfold glob_suffix. intros H. apply in_map_iff in H.
  destruct H as (e & <- & He). apply filter_In in He.
  rewrite name_child. apply He.
Qed.

Lemma rglob_suffix_name (d : PurePath.t) (node : fsnode) suffix ipath :
  In ipath (rglob_suffix d node suffix) ->
  Str.endswith suffix (PurePath.name ipath) = true.
Proof.
  unfold rglob_suffix. intros H. apply in_flat_map in H.
  destruct H as (x & _ & Hx). eapply glob_suffix_name. exact Hx.
Qed.

Lemma supported_file_name (d : PurePath.t) (node : fsnode) exclude rglob ipath :
  In ipath (_list_supported_files d node exclude rglob) ->
  PurePath.name ipath <> [].
Proof.
  unfold _list_supported_files. intros H. apply in_flat_map in H.
  destruct H as (suffix & Hs & Hi). apply filter_In in Hi.
  destruct Hi as [Hi _].
  assert (Hne : suffix <> []).
  { unfold SUPPORTED_FILE_SUFFIXES in Hs. simpl in Hs.
    intuition (subst; discriminate). }
  apply (endswith_not_nil suffix); [assumption|].
  destruct rglob; [eapply rglob_suffix_name | eapply glob_suffix_name]; exact Hi.
Qed.

Lemma with_suffix_empty_ok (p : PurePath.t) :
  PurePath.name p <> [] -> exists p', PurePath.with_suffix_empty p = Ok p'.
Proof.
  intros H. unfold PurePath.with_suffix_empty.
  destruct (PurePath.name p); [congruence | eauto].
Qed.

Lemma record_path_ok (ipath : PurePath.t) :
  PurePath.name ipath <> [] -> exists p, record_path ipath = Ok p.
Proof.
  intros H. unfold record_path.
  destruct (with_suffix_empty_ok ipath H) as [p' E]. rewrite E. simpl. eauto.
Qed.

Lemma valid_name_comp_ok (nm : list ascii) :
  valid_name nm = true -> comp_ok nm.
Proof.
  unfold valid_name. rewrite !andb_true_iff, !negb_true_iff, !str_eqb_neq.
  intros [[[H1 H2] H3] _]. apply no_sep_iff in H2.
  repeat split; assumption.
Qed.

Lemma of_str_name (nm : list ascii) :
  comp_ok nm -> PurePath.of_str nm = PurePath.mk [] [nm].
Proof.
  intros H. apply (of_str_dir_name [] nm eq_refl H).
Qed.

Lemma filename_to_title_ok (nm split_char : list ascii) :
  valid_name nm = true -> split_char <> [] ->
  exists title, _filename_to_title nm split_char = Ok title.
Proof.
  intros Hv Hs. unfold _filename_to_title.
  rewrite (of_str_name nm (valid_name_comp_ok nm Hv)).
  destruct (with_suffix_empty_ok (PurePath.mk [] [nm])) as [p' E].
  { apply valid_name_comp_ok in Hv. apply Hv. }
  rewrite E. cbn [bind]. unfold Str.split.
  destruct split_char; [congruence|]. cbn [bind]. eauto.
Qed.

Lemma insert_sorted_in (e x : list ascii * fsnode) l :
  In x (insert_sorted e l) <-> x = e \/ In x l.
Proof.
  induction l as [|y l IH]; simpl.
  - intuition congruence.
  - destruct (Str.leb (fst y) (fst e)); simpl; rewrite ?IH; intuition congruence.
Qed.

Lemma sorted_entries_in (x : list ascii * fsnode) l :
  In x (sorted_entries l) <-> In x l.
Proof.
  unfold sorted_entries.
  assert (G : forall acc, In x (fold_left (fun acc e => insert_sorted e acc) l acc)
                          <-> In x l \/ In x acc).
  { induction l as [|e l IH]; intros acc; simpl.
    - tauto.
    - rewrite IH, insert_sorted_in. intuition congruence. }
  rewrite G. simpl. tauto.
Qed.

Lemma subdirectories_in (node : fsnode) e :
  In e (subdirectories node) -> In e (dir_entries node).
Proof.
  unfold subdirectories. rewrite sorted_entries_in, filter_In. tauto.
Qed.

Lemma fs_ok_cons nm sub (es : list (list ascii * fsnode)) :
  fs_ok (Dir ((nm, sub) :: es)) = valid_name nm && fs_ok sub && fs_ok (Dir es).
Proof. reflexivity. Qed.

Lemma fs_ok_entry (entries : list (list ascii * fsnode)) e :
  fs_ok (Dir entries) = true -> In e entries -> valid_name (fst e) = true.
Proof.
  induction entries as [|[nm sub] es IH]; intros H Hin; [contradiction|].
  rewrite fs_ok_cons, !andb_true_iff in H. destruct H as [[H1 _] H3].
  destruct Hin as [<-|Hin]; [exact H1 | auto].
Qed.

Lemma subdir_pages_ok (content_folder : PurePath.t) split_char e :
  valid_name (fst e) = true -> split_char <> [] ->
  exists pages, subdir_pages content_folder split_char e = Ok pages.
Proof.
  intros Hv Hs. unfold subdir_pages.
  destruct (_list_supported_files (PurePath.child content_folder (fst e))
              (snd e) default_exclude true) as [|ipath ipaths] eqn:E; [eauto|].
  rewrite name_child.
  destruct (filename_to_title_ok (fst e) split_char Hv Hs) as [title Et].
  rewrite Et. cbn [bind].
  destruct (map_result_ok record_path (ipath :: ipaths)) as [urls Eu].
  { intros x Hx. apply record_path_ok. rewrite <- E in Hx.
    eapply supported_file_name. exact Hx. }
  rewrite Eu. cbn [bind]. eauto.
Qed.

Lemma toc_pages_ok (content_folder : PurePath.t) entries split_char :
  fs_ok (Dir entries) = true -> split_char <> [] ->
  exists pages, toc_pages content_folder (Dir entries) split_char = Ok pages.
Proof.
  intros Hf Hs. unfold toc_pages.
  destruct (map_result_ok record_path
              (_list_supported_files content_folder (Dir entries)
                 default_exclude false)) as [top Et].
  { intros x Hx. apply record_path_ok. eapply supported_file_name. exact Hx. }
  rewrite Et. cbn [bind].
  destruct (map_result_ok (subdir_pages content_folder split_char)
              (subdirectories (Dir entries))) as [below Eb].
  { intros e He. apply subdir_pages_ok; [|assumption].
    apply subdirectories_in in He. eapply fs_ok_entry; eassumption. }
  rewrite Eb. cbn [bind]. eauto.
Qed.

(** Against C8: with an empty split string the title of the first directory
    that holds a file cannot be made, and [build_toc] raises for a folder
    that exists. *)
Lemma build_toc_raises_on_empty_split :
  build_toc (fun _ => []) (Ok tt)
            (Some (Dir [("part" : list ascii, Dir [("a.md" : list ascii, File)])]))
            "root" "" =
  Err (ValueError "empty separator").
Proof. vm_compute. reflexivity. Qed.

Lemma toc_pages_shape (content_folder : PurePath.t) node split_char pages :
  toc_pages content_folder node split_char = Ok pages ->
  exists top below,
    map_result record_path
      (_list_supported_files content_folder node default_exclude false) = Ok top /\
    map_result (subdir_pages content_folder split_char) (subdirectories node) =
    Ok below /\
    pages = map path_record top ++ concat below.
Proof.
  unfold toc_pages.
  destruct (map_result record_path _) as [top|e]; [|discriminate].
  cbn [bind].
  destruct (map_result (subdir_pages content_folder split_char) _)
    as [below|e]; [|discriminate].
  cbn [bind]. intros H. inversion H. exists top, below. auto.
Qed.

(** C8, amended.  [build_toc] raises [ValueError], and writes nothing, when
    the content folder does not exist or is not a directory.  For a folder
    that exists and a split string that is not empty, building the list of
    records raises nothing, and the list holds the record of every supported
    file right under the folder; for an empty folder the list is empty. *)
Theorem build_toc_outcome :
  (forall yaml_safe_dump ipython_embed found content_folder split_char,
     found = None \/ found = Some File ->
     build_toc yaml_safe_dump ipython_embed found content_folder split_char =
     Err (ValueError ("Could not find the provided content folder" ++
                      [ascii_of_nat 10] ++
                      PurePath.to_str (PurePath.of_str content_folder)))) /\
  (forall entries content_folder split_char,
     fs_ok (Dir entries) = true -> split_char <> [] ->
     exists pages,
       toc_pages (PurePath.of_str content_folder) (Dir entries) split_char =
       Ok pages /\
       forall ipath,
         In ipath (_list_supported_files (PurePath.of_str content_folder)
                     (Dir entries) default_exclude false) ->
         exists path, record_path ipath = Ok path /\
                      In (path_record path) pages) /\
  (forall content_folder split_char,
     toc_pages (PurePath.of_str content_folder) (Dir []) split_char = Ok []).
Proof.
  split; [|split].
  - intros yaml_safe_dump ipython_embed found content_folder split_char
           [->| ->]; reflexivity.
  - intros entries content_folder split_char Hf Hs.
    destruct (toc_pages_ok (PurePath.of_str content_folder) entries split_char
                Hf Hs) as [pages E].
    exists pages. split; [exact E|].
    destruct (toc_pages_shape _ _ _ _ E) as (top & below & Et & _ & ->).
    intros ipath Hin.
    destruct (map_result_in _ _ _ _ Et Hin) as (path & Ep & Hp).
    exists path. split; [exact Ep|].
    apply in_or_app. left. apply in_map. exact Hp.
  - intros content_folder split_char. reflexivity.
Qed.

Lemma build_toc_outcome_witness :
  build_toc (fun _ => []) (Err ImportError) None "/does/not/exist" "_" =
  Err (ValueError ("Could not find the provided content folder" ++
                   [ascii_of_nat 10] ++ "/does/not/exist")) /\
  exists pages,
    toc_pages (PurePath.of_str "root") example_layout "_" = Ok pages /\
    In (path_record "01_intro") pages.
Proof.
  split.
  - apply (proj1 build_toc_outcome (fun _ => []) (Err ImportError) None
             "/does/not/exist" "_"). left. reflexivity.
  - destruct (proj1 (proj2 build_toc_outcome)
                [("01_intro.md" : list ascii, File);
                 ("02_data" : list ascii,
                  Dir [("a.md" : list ascii, File); ("b.md" : list ascii, File)])]
                "root" "_" eq_refl ltac:(discriminate)) as (pages & E & H).
    exists pages. split; [exact E|].
    destruct (H (PurePath.mk [] ["root" : list ascii; "01_intro.md" : list ascii]))
      as (path & Ep & Hp).
    + vm_compute. auto.
    + vm_compute in Ep. inversion Ep; subst path. exact Hp.
Defined.

Lemma subdir_pages_shape (content_folder : PurePath.t) split_char e pages :
  subdir_pages content_folder split_char e = Ok pages ->
  (_list_supported_files (PurePath.child content_folder (fst e))
     (snd e) default_exclude true = [] /\ pages = []) \/
  (exists title urls,
     map_result record_path
       (_list_supported_files (PurePath.child content_folder (fst e))
          (snd e) default_exclude true) = Ok urls /\
     pages = VStr BREAK_MARKER :: header_record title :: map url_record urls).
Proof.
  unfold subdir_pages. cbv zeta.
  destruct (_list_supported_files (PurePath.child content_folder (fst e))
              (snd e) default_exclude true) as [|ipath rest].
  - intros H. left. inversion H. auto.
  - intros H. right.
    destruct (_filename_to_title _ split_char) as [title|err]; [|discriminate].
    cbn [bind] in H.
    destruct (map_result record_path (ipath :: rest)) as [urls|err];
      [|discriminate].
    cbn [bind] in H. inversion H. exists title, urls. auto.
Qed.

Lemma visit_flat (name : list ascii) (r : pyval) (next : result pyval) v :
  flat_record r -> visit name r next = Ok v ->
  (v = r /\ exists p, r = path_record p) \/ next = Ok v.
Proof.
  intros [[p ->]|[[t ->]|[u ->]]] H.
  - unfold visit in H.
    change (page_sections (path_record p)) with (VList []) in H.
    rewrite find_name_nil in H.
    destruct (_no_suffix (page_path (path_record p))) as [key|e];
      [|discriminate].
    cbn [bind] in H. destruct (py_eq_str key name).
    + left. inversion H. eauto.
    + right. exact H.
  - right. exact H.
  - right. exact H.
Qed.

Lemma flat_record_is_dict (r : pyval) : flat_record r -> is_dict r = true.
Proof. intros [[p ->]|[[t ->]|[u ->]]]; reflexivity. Qed.

(** Looking a name up in a list of generated records gives a [path] record
    or [None]. *)
Lemma find_name_flat (l : list pyval) :
  Forall flat_record l ->
  forall name v, find_name (VList l) name = Ok v -> has_key "url" v = false.
Proof.
  induction 1 as [|r l Hr F IH]; intros name v H.
  - rewrite find_name_nil in H. inversion H. reflexivity.
  - rewrite find_name_cons in H.
    destruct (visit_flat name r _ v Hr H) as [[-> [p ->]]|H'].
    + reflexivity.
    + eapply IH. exact H'.
Qed.

(** The same for the tree [update_indexname] makes of the records. *)
Lemma find_name_flat_loaded (l : list pyval) (T : pyval) :
  Forall flat_record l -> toc_of_manifest (VList l) = Ok T ->
  forall name v, find_name T name = Ok v -> has_key "url" v = false.
Proof.
  intros F HT name v H.
  destruct l as [|first [|second rest]]; [discriminate| |].
  - cbn [toc_of_manifest] in HT. inversion HT; subst T.
    apply (find_name_flat [first] F name v).
    rewrite find_name_cons, find_name_nil.
    inversion F as [|? ? Hf _]; subst.
    pose proof (flat_record_is_dict first Hf) as D.
    destruct first; try discriminate.
    rewrite <- find_name_dict. exact H.
  - inversion F as [|? ? Hf F']; subst.
    assert (G : forall found, find_name (VList (second :: rest)) name = Ok found ->
                              has_key "url" found = false).
    { intros found. apply find_name_flat. assumption. }
    destruct Hf as [[p ->]|[[t ->]|[u ->]]];
      cbn in HT; inversion HT; subst T; clear HT;
      rewrite find_name_dict in H; unfold visit in H;
      match type of H with
      | context [page_sections ?T] =>
          change (page_sections T) with (VList (second :: rest)) in H
      end.
    + destruct (_no_suffix _) as [key|e]; [|discriminate].
      cbn [bind] in H. destruct (py_eq_str key name).
      * inversion H. reflexivity.
      * destruct (find_name (VList (second :: rest)) name) as [found|e];
          [|discriminate].
        cbn [bind] in H. specialize (G found eq_refl).
        destruct found; inversion H; subst; (reflexivity || exact G).
    + change (page_path _) with VNone in H. cbn [_no_suffix bind py_eq_str] in H.
      destruct (find_name (VList (second :: rest)) name) as [found|e];
        [|discriminate].
      cbn [bind] in H. specialize (G found eq_refl).
      destruct found; inversion H; subst; (reflexivity || exact G).
    + change (page_path _) with VNone in H. cbn [_no_suffix bind py_eq_str] in H.
      destruct (find_name (VList (second :: rest)) name) as [found|e];
        [|discriminate].
      cbn [bind] in H. specialize (G found eq_refl).
      destruct found; inversion H; subst; (reflexivity || exact G).
Qed.

Lemma toc_pages_records (content_folder : PurePath.t) node split_char pages :
  toc_pages content_folder node split_char = Ok pages ->
  Forall (fun v => v = VStr BREAK_MARKER \/ flat_record v) pages.
Proof.
  intros H. apply toc_pages_shape in H.
  destruct H as (top & below & _ & Eb & ->).
  apply Forall_app. split.
  - apply Forall_forall. intros v Hv. apply in_map_iff in Hv.
    destruct Hv as (p & <- & _). right. left. eauto.
  - apply Forall_forall. intros v Hv. apply in_concat in Hv.
    destruct Hv as (pg & Hpg & Hv).
    destruct (map_result_in_inv _ _ _ _ Eb Hpg) as (e & _ & Ee).
    apply subdir_pages_shape in Ee.
    destruct Ee as [[_ ->]|(title & urls & _ & ->)]; [contradiction|].
    destruct Hv as [<-|[<-|Hv]].
    + left. reflexivity.
    + right. right. left. eauto.
    + apply in_map_iff in Hv. destruct Hv as (u & <- & _).
      right. right. right. eauto.
Qed.

Lemma manifest_records_flat (pages : list pyval) :
  Forall (fun v => v = VStr BREAK_MARKER \/ flat_record v) pages ->
  Forall flat_record (manifest_records pages).
Proof.
  unfold manifest_records. intros F. apply Forall_forall. intros v Hv.
  apply filter_In in Hv. destruct Hv as [Hin Hd].
  rewrite Forall_forall in F. destruct (F v Hin) as [->|Hf];
    [discriminate | assumption].
Qed.

(** C10.  In the records [build_toc] makes, a file right under the content
    folder has a record with the one key [path], a file below one of the
    sub-directories a record with the one key [url]; every record is one of
    these, a header or the break marker.  [find_name] reads the key [path]
    only: whether the records are searched as a list or as the tree
    [update_indexname] makes of them, no record with the key [url] is ever
    returned. *)
Theorem generated_url_records_not_found :
  forall content_folder node split_char pages,
    toc_pages content_folder node split_char = Ok pages ->
    (forall ipath p,
       In ipath (_list_supported_files content_folder node default_exclude false) ->
       record_path ipath = Ok p -> In (path_record p) pages) /\
    (forall e ipath u,
       In e (subdirectories node) ->
       In ipath (_list_supported_files (PurePath.child content_folder (fst e))
                   (snd e) default_exclude true) ->
       record_path ipath = Ok u -> In (url_record u) pages) /\
    Forall (fun v => v = VStr BREAK_MARKER \/ flat_record v) pages /\
    (forall T,
       T = VList (manifest_records pages) \/
       toc_of_manifest (VList (manifest_records pages)) = Ok T ->
       forall name v, find_name T name = Ok v -> has_key "url" v = false).
Proof.
  intros content_folder node split_char pages H.
  pose proof (toc_pages_records _ _ _ _ H) as R.
  pose proof (manifest_records_flat _ R) as F.
  destruct (toc_pages_shape _ _ _ _ H) as (top & below & Et & Eb & ->).
  repeat split.
  - intros ipath p Hin Hp.
    destruct (map_result_in _ _ _ _ Et Hin) as (p' & Ep' & Hp').
    rewrite Hp in Ep'. inversion Ep'; subst p'.
    apply in_or_app. left. apply in_map. assumption.
  - intros e ipath u He Hin Hu.
    destruct (map_result_in _ _ _ _ Eb He) as (pg & Epg & Hpg).
    apply subdir_pages_shape in Epg.
    destruct Epg as [[E0 _]|(title & urls & Eu & ->)].
    + rewrite E0 in Hin. contradiction.
    + destruct (map_result_in _ _ _ _ Eu Hin) as (u' & Eu' & Hu').
      rewrite Hu in Eu'. inversion Eu'; subst u'.
      apply in_or_app. right. apply in_concat.
      eexists. split; [exact Hpg|]. right. right. apply in_map. assumption.
  - exact R.
  - intros T [->|HT] name v Hv.
    + eapply find_name_flat; eassumption.
    + eapply find_name_flat_loaded; eassumption.
Qed.

Lemma generated_url_records_not_found_witness :
  In (path_record "01_intro")
     [path_record "01_intro"; VStr BREAK_MARKER; header_record "Data";
      url_record "02_data/a"; url_record "02_data/b"] /\
  In (url_record "02_data/b")
     [path_record "01_intro"; VStr BREAK_MARKER; header_record "Data";
      url_record "02_data/a"; url_record "02_data/b"] /\
  forall name v,
    find_name (VDict [("path" : list ascii, VStr "01_intro");
                      ("sections" : list ascii,
                       VList [header_record "Data"; url_record "02_data/a";
                              url_record "02_data/b"])]) name = Ok v ->
    has_key "url" v = false.
Proof.
  pose proof (generated_url_records_not_found
                (PurePath.of_str "root") example_layout "_"
                [path_record "01_intro"; VStr BREAK_MARKER; header_record "Data";
                 url_record "02_data/a"; url_record "02_data/b"]
                eq_refl) as (H1 & H2 & _ & H4).
  split; [|split].
  - apply (H1 (PurePath.mk [] ["root" : list ascii; "01_intro.md" : list ascii])).
    + vm_compute. auto.
    + reflexivity.
  - apply (H2 ("02_data" : list ascii,
               Dir [("a.md" : list ascii, File); ("b.md" : list ascii, File)])
              (PurePath.mk [] ["root" : list ascii; "02_data" : list ascii;
                               "b.md" : list ascii])).
    + vm_compute. auto.
    + vm_compute. auto.
    + reflexivity.
  - apply H4. right. reflexivity.
Defined.

(* ================================================================= *)
(** ** Further properties of the lookup and of the hooks *)

Lemma py_eq_str_true (key : pyval) (name : list ascii) :
  py_eq_str key name = true -> key = VStr name.
Proof.
  destruct key; try discriminate. simpl. intros H.
  apply str_eqb_eq in H. congruence.
Qed.

(** X1.  Whatever value [find_name] is given, a result that is not [None]
    is a node of that value, and its suffix-free path is the name looked
    for. *)
Theorem find_name_sound (pages : pyval) :
  forall name v, find_name pages name = Ok v ->
    v = VNone \/ (In v (nodes pages) /\ page_key v = Some name).
Proof.
  induction pages as [| | | s | items IH | entries IH] using pyval_nested_ind;
    intros name v H; try discriminate.
  - destruct s; [|discriminate]. inversion H. auto.
  - induction IH as [|x items Hx _ IHl].
    + rewrite find_name_nil in H. inversion H. auto.
    + rewrite find_name_cons in H.
      destruct (is_dict x) eqn:D; [|destruct x; discriminate].
      rewrite visit_via_find in H by assumption.
      destruct (find_name x name) as [r|e] eqn:Er; [|discriminate].
      cbn [bind] in H. rewrite nodes_cons.
      pose proof (Hx name r Er) as R.
      destruct r; try (inversion H; subst v;
                       destruct R as [R|[R1 R2]]; [discriminate|];
                       right; split; [apply in_or_app; left|]; assumption).
      destruct (IHl H) as [->|[I1 I2]]; [auto|].
      right. split; [apply in_or_app; right|]; assumption.
  - rewrite find_name_dict in H. unfold visit in H. rewrite nodes_dict.
    destruct (_no_suffix (page_path (VDict entries))) as [key|e] eqn:EK;
      [|discriminate].
    cbn [bind] in H. destruct (py_eq_str key name) eqn:EQ.
    + inversion H; subst v. right. split; [left; reflexivity|].
      apply py_eq_str_true in EQ. subst key.
      unfold page_key. rewrite EK. reflexivity.
    + assert (PS : forall r, find_name (page_sections (VDict entries)) name = Ok r ->
                     r = VNone \/
                     In r (nodes (page_sections (VDict entries))) /\
                     page_key r = Some name).
      { destruct (sections_cases entries) as [E|Hin].
        - rewrite E. intros r Hr. rewrite find_name_nil in Hr.
          inversion Hr. auto.
        - rewrite Forall_forall in IH. intros r. apply (IH _ Hin). }
      destruct (find_name (page_sections (VDict entries)) name) as [found|e]
        eqn:EF; [|discriminate].
      cbn [bind] in H. specialize (PS found eq_refl).
      destruct found; try (inversion H; subst v;
                           destruct PS as [PS|[P1 P2]]; [discriminate|];
                           right; split; [right|]; assumption).
      inversion H. auto.
Qed.

(** X2.  After [update_indexname] has loaded a manifest, the root of
    [globaltoc] is what [find_name] gives for [master_doc]: the landing
    page is always in the table of contents. *)
Theorem master_doc_is_found :
  forall (read_manifest : pyval -> result pyval) cfg cfg' k,
    truthy (globaltoc_path cfg) = true ->
    update_indexname read_manifest cfg = Ok cfg' ->
    master_doc cfg' = VStr k ->
    find_name (globaltoc cfg') k = Ok (globaltoc cfg').
Proof.
  intros read_manifest cfg cfg' k HT HU HM.
  unfold update_indexname in HU. rewrite HT in HU. cbn [negb] in HU.
  destruct (read_manifest (globaltoc_path cfg)) as [toc|e]; [|discriminate].
  cbn [bind] in HU.
  destruct (toc_of_manifest toc) as [root|e]; [|discriminate].
  cbn [bind] in HU.
  destruct root as [| | | | |entries]; try discriminate.
  unfold py_getitem in HU.
  destruct (dict_get entries "path") as [path|] eqn:EP; [|discriminate].
  cbn [bind] in HU.
  destruct (_no_suffix path) as [master|e] eqn:EM; [|discriminate].
  cbn [bind] in HU. inversion HU; subst cfg'. simpl in HM. subst master.
  simpl globaltoc. rewrite find_name_dict. unfold visit, page_path, dict_get_default.
  rewrite EP, EM. cbn [bind py_eq_str]. rewrite str_eqb_refl. reflexivity.
Qed.

Lemma master_doc_is_found_witness :
  let root := VDict [("path" : list ascii, VStr "index.md");
                     ("sections" : list ascii,
                      VList [VDict [("path" : list ascii, VStr "intro.md")]])] in
  find_name root "index" = Ok root.
Proof.
  intros root.
  apply (master_doc_is_found
           (fun _ => Ok (VList [VDict [("path" : list ascii, VStr "index.md")];
                                VDict [("path" : list ascii, VStr "intro.md")]]))
           (mkConfig (VStr "_toc.yml") VNone VNone)
           (mkConfig (VStr "_toc.yml") root (VStr "index")) "index");
    reflexivity.
Defined.

(** X3.  The ways [update_indexname] fails once a manifest path is set: an
    error of reading or parsing goes through; a manifest that is not a list
    leaves [toc_updated] unbound; an empty list has no first record; a first
    record that is not a dict cannot be indexed by a key; and a first record
    without the key [path] raises [KeyError], also when records follow. *)
Theorem update_indexname_failures :
  forall (read_manifest : pyval -> result pyval) cfg,
    truthy (globaltoc_path cfg) = true ->
    (forall e, read_manifest (globaltoc_path cfg) = Err e ->
               update_indexname read_manifest cfg = Err e) /\
    (forall toc, read_manifest (globaltoc_path cfg) = Ok toc ->
                 (forall items, toc <> VList items) ->
                 update_indexname read_manifest cfg = Err UnboundLocalError) /\
    (read_manifest (globaltoc_path cfg) = Ok (VList []) ->
     update_indexname read_manifest cfg = Err IndexError) /\
    (forall first rest,
       read_manifest (globaltoc_path cfg) = Ok (VList (first :: rest)) ->
       is_dict first = false ->
       update_indexname read_manifest cfg = Err TypeError) /\
    (forall entries rest,
       read_manifest (globaltoc_path cfg) = Ok (VList (VDict entries :: rest)) ->
       dict_get entries "path" = None ->
       update_indexname read_manifest cfg = Err (KeyError "path")).
Proof.
  intros read_manifest cfg HT. unfold update_indexname. rewrite HT.
  cbn [negb]. repeat split.
  - intros e ->. reflexivity.
  - intros toc -> N. destruct toc; try reflexivity.
    exfalso. eapply N. reflexivity.
  - intros ->. reflexivity.
  - intros first rest -> D. destruct rest; destruct first; try discriminate;
      reflexivity.
  - intros entries rest -> HP. destruct rest as [|second rest].
    + cbn [bind toc_of_manifest py_getitem]. rewrite HP. reflexivity.
    + cbn [bind toc_of_manifest py_setitem py_getitem].
      rewrite dict_get_set_other by reflexivity. rewrite HP. reflexivity.
Qed.

Lemma update_indexname_failures_witness :
  update_indexname (fun _ => Ok (VList [VDict [("header" : list ascii, VStr "Part")];
                                        VDict [("path" : list ascii, VStr "a")]]))
                   (mkConfig (VStr "_toc.yml") VNone VNone) =
  Err (KeyError "path").
Proof.
  apply (proj2 (proj2 (proj2 (proj2
           (update_indexname_failures
              (fun _ => Ok (VList [VDict [("header" : list ascii, VStr "Part")];
                                   VDict [("path" : list ascii, VStr "a")]]))
              (mkConfig (VStr "_toc.yml") VNone VNone) eq_refl))))
           [("header" : list ascii, VStr "Part")]
           [VDict [("path" : list ascii, VStr "a")]]);
    reflexivity.
Defined.

(** X4.  [add_toctree] hands the source back as it is when no manifest path
    is set, and when the page is found and has no sections: whatever the
    suffix of the document, nothing is read of it then. *)
Theorem add_toctree_leaves_source :
  forall doc2path os_path_relpath py_format (cell : Type)
         (nbf_reads : list ascii -> result (notebook cell))
         nbf_new_markdown_cell nbf_writes cfg docname source,
    (truthy (globaltoc_path cfg) = false ->
     add_toctree doc2path os_path_relpath py_format cell nbf_reads
                 nbf_new_markdown_cell nbf_writes cfg docname source =
     Ok source) /\
    (forall key entries,
       truthy (globaltoc_path cfg) = true ->
       _no_suffix (VStr (doc2path docname)) = Ok (VStr key) ->
       find_name (globaltoc cfg) key = Ok (VDict entries) ->
       dict_get entries "sections" = None \/
       dict_get entries "sections" = Some (VList []) ->
       add_toctree doc2path os_path_relpath py_format cell nbf_reads
                   nbf_new_markdown_cell nbf_writes cfg docname source =
       Ok source).
Proof.
  intros doc2path os_path_relpath py_format cell nbf_reads
         nbf_new_markdown_cell nbf_writes cfg docname source.
  split.
  - intros HT. unfold add_toctree. rewrite HT. reflexivity.
  - intros key entries HT HK HF HS.
    unfold add_toctree. rewrite HT. cbn [negb]. cbv zeta.
    rewrite HK. cbn [bind]. rewrite HF. cbn [bind].
    unfold page_toctree, py_get, dict_get_default.
    destruct HS as [-> | ->]; reflexivity.
Qed.

Lemma add_toctree_leaves_source_witness :
  add_toctree (fun d => d) (fun _ _ => Err TypeError) (fun _ => []) unit
              (fun _ => Err TypeError) (fun _ => tt) (fun _ => [])
              (mkConfig (VStr "_toc.yml")
                        (VDict [("path" : list ascii, VStr "notes")]) VNone)
              "notes.rst" "text" = Ok (list_ascii_of_string "text").
Proof.
  apply (proj2 (add_toctree_leaves_source (fun d => d) (fun _ _ => Err TypeError)
                  (fun _ => []) unit (fun _ => Err TypeError) (fun _ => tt)
                  (fun _ => [])
                  (mkConfig (VStr "_toc.yml")
                            (VDict [("path" : list ascii, VStr "notes")]) VNone)
                  "notes.rst" "text")
           "notes" [("path" : list ascii, VStr "notes")]);
    try reflexivity. left. reflexivity.
Defined.

(* ================================================================= *)
(** ** Further properties of the normalisation *)

Lemma not_keep_component (x : list ascii) :
  negb (PurePath.keep_component x) = Str.eqb x [] || Str.eqb x ".".
Proof.
  unfold PurePath.keep_component. rewrite negb_andb, !negb_involutive.
  reflexivity.
Qed.

Lemma components_nil_iff (rel : list ascii) :
  PurePath.components rel = [] <-> nameless rel = true.
Proof.
  unfold PurePath.components, nameless.
  induction (Str.split_char PurePath.sep rel) as [|x l IH]; simpl.
  - tauto.
  - rewrite <- not_keep_component.
    destruct (PurePath.keep_component x); simpl.
    + split; discriminate.
    + exact IH.
Qed.

Lemma nameless_lstrip (s : list ascii) :
  nameless (Str.lstrip_char PurePath.sep s) = nameless s.
Proof.
  unfold nameless. induction s as [|a s IH]; [reflexivity|].
  cbn [Str.lstrip_char]. destruct (Ascii.eqb a PurePath.sep) eqn:E;
    [|reflexivity].
  cbn [Str.split_char]. rewrite E. cbn [forallb]. exact IH.
Qed.

Lemma nameless_splitroot (s : list ascii) :
  nameless (snd (PurePath.splitroot s)) = nameless s.
Proof.
  unfold PurePath.splitroot. destruct s as [|a s]; [reflexivity|].
  destruct (Ascii.eqb a PurePath.sep); [|reflexivity].
  cbv zeta. destruct (_ =? 2); cbn [snd]; apply nameless_lstrip.
Qed.

Lemma names_nil_iff (s : list ascii) :
  PurePath.names (PurePath.of_str s) = [] <-> nameless s = true.
Proof.
  destruct s as [|a s]; [simpl; tauto|].
  rewrite of_str_eq by discriminate. cbn [PurePath.names].
  rewrite components_nil_iff, nameless_splitroot. tauto.
Qed.

Lemma name_not_nil (p : PurePath.t) :
  path_ok p -> PurePath.names p <> [] -> PurePath.name p <> [].
Proof.
  intros [_ F] H. unfold PurePath.name.
  destruct (PurePath.names p) as [|x l] using rev_ind; [congruence|].
  rewrite last_last. apply Forall_app in F. destruct F as [_ F].
  inversion F as [|? ? Hx _]; subst. apply Hx.
Qed.

(** X5.  [_no_suffix] raises [ValueError] on exactly the strings in which
    every piece between two separators is empty or a dot (['' ], ['.'],
    ['/'], ['./.']); on every other string it returns a string. *)
Theorem no_suffix_fails_iff_nameless (s : list ascii) :
  (nameless s = true ->
   _no_suffix (VStr s) = Err (ValueError "has an empty name")) /\
  (nameless s = false -> exists q, _no_suffix (VStr s) = Ok (VStr q)).
Proof.
  rewrite no_suffix_str. split; intros H.
  - apply names_nil_iff in H.
    rewrite with_suffix_empty_nil by assumption. reflexivity.
  - destruct (with_suffix_empty_ok (PurePath.of_str s)) as [p' E].
    { apply name_not_nil; [apply of_str_ok|].
      intros N. apply names_nil_iff in N. congruence. }
    rewrite E. cbn [bind]. eauto.
Qed.

Lemma no_suffix_fails_iff_nameless_witness :
  _no_suffix (VStr "./.") = Err (ValueError "has an empty name") /\
  exists q, _no_suffix (VStr "./a") = Ok (VStr q).
Proof.
  split.
  - apply (proj1 (no_suffix_fails_iff_nameless "./.")). reflexivity.
  - apply (proj2 (no_suffix_fails_iff_nameless "./a")). reflexivity.
Defined.

Lemma of_str_relative (s : list ascii) :
  is_relative s = true ->
  PurePath.of_str s = PurePath.mk [] (PurePath.components s).
Proof.
  intros H. destruct s as [|c s]; [discriminate|].
  rewrite of_str_eq by discriminate. unfold PurePath.splitroot.
  simpl in H. apply negb_true_iff in H. rewrite H. reflexivity.
Qed.

Lemma is_relative_app (a b : list ascii) :
  is_relative a = true -> is_relative (a ++ b) = true.
Proof. destruct a; [discriminate | exact (fun H => H)]. Qed.

Lemma no_suffix_relative (s t : list ascii) :
  is_relative s = true -> is_relative t = true ->
  PurePath.components s = PurePath.components t ->
  _no_suffix (VStr s) = _no_suffix (VStr t).
Proof.
  intros Hs Ht E. rewrite !no_suffix_str, !of_str_relative by assumption.
  rewrite E. reflexivity.
Qed.

(** X6.  In a path that does not start at the root, a doubled separator, a
    dot between two separators, a separator at the end and a leading [./]
    do not change what [_no_suffix] gives. *)
Theorem no_suffix_ignores_redundant_parts (a b : list ascii) :
  is_relative a = true ->
  _no_suffix (VStr (a ++ "//" ++ b)) = _no_suffix (VStr (a ++ "/" ++ b)) /\
  _no_suffix (VStr (a ++ "/./" ++ b)) = _no_suffix (VStr (a ++ "/" ++ b)) /\
  _no_suffix (VStr (a ++ "/")) = _no_suffix (VStr a) /\
  _no_suffix (VStr ("./" ++ a)) = _no_suffix (VStr a).
Proof.
  intros Ha.
  change (list_ascii_of_string "//") with [PurePath.sep; PurePath.sep].
  change (list_ascii_of_string "/./")
    with [PurePath.sep; PurePath.dot; PurePath.sep].
  change (list_ascii_of_string "/") with [PurePath.sep].
  change (list_ascii_of_string "./") with [PurePath.dot; PurePath.sep].
  assert (C0 : PurePath.components [] = []) by reflexivity.
  assert (C1 : PurePath.components [PurePath.dot] = []) by reflexivity.
  split; [|split; [|split]].
  - apply no_suffix_relative; try (apply is_relative_app; assumption).
    change (a ++ [PurePath.sep; PurePath.sep] ++ b)
      with (a ++ PurePath.sep :: ([] ++ PurePath.sep :: b)).
    change (a ++ [PurePath.sep] ++ b) with (a ++ PurePath.sep :: b).
    rewrite !components_app, C0. reflexivity.
  - apply no_suffix_relative; try (apply is_relative_app; assumption).
    change (a ++ [PurePath.sep; PurePath.dot; PurePath.sep] ++ b)
      with (a ++ PurePath.sep :: ([PurePath.dot] ++ PurePath.sep :: b)).
    change (a ++ [PurePath.sep] ++ b) with (a ++ PurePath.sep :: b).
    rewrite !components_app, C1. reflexivity.
  - apply no_suffix_relative;
      [apply is_relative_app; assumption | assumption |].
    change (a ++ [PurePath.sep]) with (a ++ PurePath.sep :: []).
    rewrite components_app, C0. apply app_nil_r.
  - apply no_suffix_relative; [reflexivity | assumption |].
    change ([PurePath.dot; PurePath.sep] ++ a)
      with ([PurePath.dot] ++ PurePath.sep :: a).
    rewrite components_app, C1. reflexivity.
Qed.

Lemma no_suffix_ignores_redundant_parts_witness :
  _no_suffix (VStr ("part" ++ "//" ++ "page.md")) =
  _no_suffix (VStr ("part" ++ "/" ++ "page.md")).
Proof.
  apply (proj1 (no_suffix_ignores_redundant_parts "part" "page.md" eq_refl)).
Defined.

(* ================================================================= *)
(** ** Further properties of the generated table of contents *)

(** Splitting at a separator of one character. *)
Lemma split_aux_char (c : ascii) (s cur : list ascii) :
  Str.split_aux [c] 0 cur s = prepend (rev cur) (Str.split_char c s).
Proof.
  revert cur. induction s as [|a s IH]; intros cur.
  - simpl. rewrite app_nil_r. reflexivity.
  - cbn [Str.split_aux Str.startswith Str.split_char length Nat.sub].
    rewrite andb_true_r.
    destruct (Ascii.eqb c a) eqn:E.
    + apply Ascii.eqb_eq in E. subst a. rewrite Ascii.eqb_refl.
      rewrite IH. cbn [rev prepend]. rewrite app_nil_r.
      pose proof (split_char_not_nil c s) as N.
      destruct (Str.split_char c s); [congruence | reflexivity].
    + assert (E' : Ascii.eqb a c = false).
      { apply Ascii.eqb_neq. intros ->. rewrite Ascii.eqb_refl in E.
        discriminate. }
      rewrite E', IH. cbn [rev].
      pose proof (split_char_not_nil c s) as N.
      destruct (Str.split_char c s) as [|p ps]; [congruence|].
      cbn [prepend]. rewrite <- app_assoc. reflexivity.
Qed.

Lemma split_one_char (c : ascii) (s : list ascii) :
  Str.split [c] s = Ok (Str.split_char c s).
Proof.
  unfold Str.split. rewrite split_aux_char. cbn [rev prepend].
  pose proof (split_char_not_nil c s) as N.
  destruct (Str.split_char c s); [congruence | reflexivity].
Qed.

Lemma plain_piece_inv (c : ascii) (x : list ascii) :
  plain_piece c x = true ->
  ~ In c x /\ ~ In PurePath.dot x /\ ~ In PurePath.sep x.
Proof.
  unfold plain_piece. rewrite forallb_forall. intros H.
  repeat split; intros Hin; apply H in Hin;
    rewrite Ascii.eqb_refl in Hin; simpl in Hin;
    rewrite ?andb_false_r in Hin; discriminate.
Qed.

Lemma join_chars (c : ascii) (parts : list (list ascii)) (x : ascii) :
  In x (Str.join [c] parts) -> x = c \/ exists p, In p parts /\ In x p.
Proof.
  induction parts as [|p parts IH]; [contradiction|].
  destruct parts as [|q parts].
  - simpl. intros H. right. exists p. auto.
  - change (Str.join [c] (p :: q :: parts))
      with (p ++ c :: Str.join [c] (q :: parts)).
    intros H. apply in_app_or in H. destruct H as [H|[H|H]].
    + right. exists p. split; [left; reflexivity | assumption].
    + left. congruence.
    + destruct (IH H) as [->|(p' & Hp & Hx)]; [auto|].
      right. exists p'. split; [right|]; assumption.
Qed.

Lemma suffix_of_no_dot (nm : list ascii) :
  ~ In PurePath.dot nm -> PurePath.suffix_of nm = [].
Proof.
  intros H. unfold PurePath.suffix_of.
  rewrite rfind_char_none by assumption. reflexivity.
Qed.

(** X7.  The title of a file name made of pieces joined by a one-character
    separator, the pieces free of that character, of dots and of path
    separators: when the first piece reads as an integer and is not the only
    one it is dropped; the pieces left are capitalized and joined by
    spaces.  A name that is a number alone keeps it.

    The name is made of ASCII characters and its first piece has at most
    4300 of them: there [Str.capitalize] and [Str.int_ok] are
    [str.capitalize] and the success of [int], which beyond ASCII know more
    letters, digits and blanks, and beyond 4300 digits raise. *)
Theorem filename_to_title_pieces (c : ascii) (parts : list (list ascii)) :
  is_ascii c = true -> c <> PurePath.dot -> c <> PurePath.sep ->
  forallb (fun piece => plain_piece c piece && forallb is_ascii piece) parts
  = true ->
  length (hd [] parts) <= 4300 ->
  Str.join [c] parts <> [] ->
  _filename_to_title (Str.join [c] parts) [c] =
  Ok (Str.join " " (map Str.capitalize
                        (if Str.int_ok (hd [] parts) && (1 <? length parts)
                         then tl parts else parts))).
Proof.
  intros _ Hd Hs Hp0 _ Hne.
  assert (Hparts : parts <> []) by (intros ->; apply Hne; reflexivity).
  assert (Hp : forall p, In p parts -> plain_piece c p = true).
  { rewrite forallb_forall in Hp0. intros p Hin.
    apply Hp0 in Hin. apply andb_true_iff in Hin. apply Hin. }
  assert (P : forall x, In x (Str.join [c] parts) ->
                        x <> PurePath.dot /\ x <> PurePath.sep).
  { intros x Hx. destruct (join_chars c parts x Hx) as [->|(p & Hin & Hxp)].
    - auto.
    - destruct (plain_piece_inv c p (Hp p Hin)) as (_ & H1 & H2).
      split; intros ->; tauto. }
  assert (Hok : comp_ok (Str.join [c] parts)).
  { repeat split; [assumption | |].
    - intros E. destruct (P PurePath.dot) as [N _]; [|congruence].
      rewrite E. left. reflexivity.
    - intros Hin. destruct (P _ Hin) as [_ N]. congruence. }
  unfold _filename_to_title. rewrite (of_str_name _ Hok).
  rewrite (with_suffix_empty_last (PurePath.mk [] [Str.join [c] parts]) []
             (Str.join [c] parts) eq_refl Hne).
  cbn [bind app PurePath.anchor]. unfold PurePath.name. cbn [PurePath.names last].
  rewrite stem_of_fixed.
  2:{ apply suffix_of_no_dot. intros Hin. destruct (P _ Hin) as [N _].
      congruence. }
  rewrite split_one_char. cbn [bind].
  rewrite split_char_join; [| assumption |].
  2:{ apply Forall_forall. intros p Hin.
      apply (plain_piece_inv c p (Hp p Hin)). }
  destruct (Str.int_ok (hd [] parts)); [|reflexivity].
  destruct (1 <? length parts); reflexivity.
Qed.

Lemma filename_to_title_pieces_witness :
  _filename_to_title (Str.join ["_"%char] ["02" : list ascii; "data" : list ascii;
                                           "sets" : list ascii]) ["_"%char] =
  Ok (list_ascii_of_string "Data Sets") /\
  _filename_to_title (Str.join ["_"%char] ["03" : list ascii]) ["_"%char] =
  Ok (list_ascii_of_string "03").
Proof.
  split.
  - apply (filename_to_title_pieces "_"%char
             ["02" : list ascii; "data" : list ascii; "sets" : list ascii]);
      try reflexivity; try discriminate. simpl. lia.
  - apply (filename_to_title_pieces "_"%char ["03" : list ascii]);
      try reflexivity; try discriminate. simpl. lia.
Defined.

Lemma glob_suffix_in (d : PurePath.t) (node : fsnode) suffix ipath :
  In ipath (glob_suffix d node suffix) <->
  exists nm, In nm (map fst (dir_entries node)) /\
             ipath = PurePath.child d nm /\ Str.endswith suffix nm = true.
Proof.
  unfold glob_suffix. rewrite in_map_iff. split.
  - intros (e & <- & He). apply filter_In in He. destruct He as [He Hs].
    exists (fst e). split; [apply in_map; assumption | auto].
  - intros (nm & Hin & -> & Hs). apply in_map_iff in Hin.
    destruct Hin as (e & <- & He). exists e. split; [reflexivity|].
    apply filter_In. auto.
Qed.

Lemma list_supported_files_in (glob : list ascii -> list PurePath.t)
  (exclude : list (list ascii)) ipath :
  In ipath
     (flat_map
        (fun suffix =>
           filter (fun ipath =>
                     negb (existsb (Str.eqb (PurePath.name ipath)) exclude) &&
                     negb (Str.contains "ipynb_checkpoints" (PurePath.to_str ipath)))
                  (glob suffix))
        SUPPORTED_FILE_SUFFIXES) <->
  (exists suffix, In suffix SUPPORTED_FILE_SUFFIXES /\ In ipath (glob suffix)) /\
  existsb (Str.eqb (PurePath.name ipath)) exclude = false /\
  Str.contains "ipynb_checkpoints" (PurePath.to_str ipath) = false.
Proof.
  rewrite in_flat_map. split.
  - intros (suffix & Hs & Hi). apply filter_In in Hi. destruct Hi as [Hi Hf].
    apply andb_true_iff in Hf. rewrite !negb_true_iff in Hf. split; eauto.
  - intros ((suffix & Hs & Hi) & H1 & H2). exists suffix. split; [assumption|].
    apply filter_In. split; [assumption|]. rewrite H1, H2. reflexivity.
Qed.

(** X8.  What [_list_supported_files] returns for a directory, its
    sub-directories not searched: the paths of exactly those entries, files
    or directories, whose name ends with one of the supported suffixes, is
    not in [exclude], and whose path does not hold [ipynb_checkpoints]
    anywhere, the name of the directory itself included. *)
Theorem list_supported_files_spec :
  forall (directory : PurePath.t) (node : fsnode) exclude ipath,
    In ipath (_list_supported_files directory node exclude false) <->
    exists nm, In nm (map fst (dir_entries node)) /\
               ipath = PurePath.child directory nm /\
               supported_entry directory exclude nm = true.
Proof.
  intros directory node exclude ipath. unfold _list_supported_files.
  rewrite list_supported_files_in. unfold supported_entry. split.
  - intros ((suffix & Hs & Hi) & H1 & H2).
    apply glob_suffix_in in Hi. destruct Hi as (nm & Hin & -> & He).
    exists nm. rewrite name_child in H1. rewrite H1, H2.
    repeat split; try assumption.
    rewrite !andb_true_r. apply existsb_exists. eauto.
  - intros (nm & Hin & -> & H).
    rewrite !andb_true_iff, !negb_true_iff in H. destruct H as [[H0 H1] H2].
    apply existsb_exists in H0. destruct H0 as (suffix & Hs & He).
    rewrite name_child. repeat split; try assumption.
    exists suffix. split; [assumption|]. apply glob_suffix_in. eauto.
Qed.

(** X9.  With its sub-directories searched too, [_list_supported_files]
    never returns a path whose name is in [exclude], nor one that holds
    [ipynb_checkpoints]; the name of every path it returns ends with a
    supported suffix; and it returns every supported entry of every
    directory below the one given. *)
Theorem list_supported_files_recursive :
  forall (directory : PurePath.t) (node : fsnode) exclude,
    (forall ipath,
       In ipath (_list_supported_files directory node exclude true) ->
       existsb (Str.eqb (PurePath.name ipath)) exclude = false /\
       Str.contains "ipynb_checkpoints" (PurePath.to_str ipath) = false /\
       existsb (fun suffix => Str.endswith suffix (PurePath.name ipath))
               SUPPORTED_FILE_SUFFIXES = true) /\
    (forall d sub nm,
       In (d, sub) (iterate_directories directory node) ->
       In nm (map fst (dir_entries sub)) ->
       supported_entry d exclude nm = true ->
       In (PurePath.child d nm)
          (_list_supported_files directory node exclude true)).
Proof.
  intros directory node exclude. unfold _list_supported_files. split.
  - intros ipath H. apply list_supported_files_in in H.
    destruct H as ((suffix & Hs & Hi) & H1 & H2).
    repeat split; try assumption.
    apply existsb_exists. exists suffix. split; [assumption|].
    eapply rglob_suffix_name. exact Hi.
  - intros d sub nm Hd Hn H. apply list_supported_files_in.
    unfold supported_entry in H.
    rewrite !andb_true_iff, !negb_true_iff in H. destruct H as [[H0 H1] H2].
    apply existsb_exists in H0. destruct H0 as (suffix & Hs & He).
    rewrite name_child. repeat split; try assumption.
    exists suffix. split; [assumption|].
    unfold rglob_suffix. apply in_flat_map. exists (d, sub).
    split; [assumption|]. apply glob_suffix_in. eauto.
Qed.

Lemma list_supported_files_recursive_witness :
  In (PurePath.mk [] ["part" : list ascii; "deep" : list ascii; "b.py" : list ascii])
     (_list_supported_files (PurePath.of_str "part")
        (Dir [("LICENSE.md" : list ascii, File);
              ("deep" : list ascii, Dir [("b.py" : list ascii, File)])])
        default_exclude true).
Proof.
  apply (proj2 (list_supported_files_recursive (PurePath.of_str "part")
                  (Dir [("LICENSE.md" : list ascii, File);
                        ("deep" : list ascii, Dir [("b.py" : list ascii, File)])])
                  default_exclude)
           (PurePath.mk [] ["part" : list ascii; "deep" : list ascii])
           (Dir [("b.py" : list ascii, File)]) "b.py").
  - simpl. auto.
  - simpl. auto.
  - reflexivity.
Defined.

Lemma find_name_sound_witness :
  let page := VDict [("path" : list ascii, VStr "b.md")] in
  let T := VList [VDict [("path" : list ascii, VStr "a.md")]; page; VStr "x"] in
  page = VNone \/ (In page (nodes T) /\ page_key page = Some ("b" : list ascii)).
Proof.
  intros page T. apply (find_name_sound T "b" page). reflexivity.
Defined.

Lemma splitroot_name (x : list ascii) :
  comp_ok x -> PurePath.splitroot x = ([], x).
Proof.
  intros (Hne & _ & Hsep). destruct x as [|c x]; [congruence|].
  unfold PurePath.splitroot.
  destruct (Ascii.eqb c PurePath.sep) eqn:E; [|reflexivity].
  apply Ascii.eqb_eq in E. subst. exfalso. apply Hsep. left. reflexivity.
Qed.

(** [Path] applied to names gives the path of these names. *)
Lemma parse_parts_names (l : list (list ascii)) :
  Forall comp_ok l -> PurePath.parse_parts l = PurePath.mk [] l.
Proof.
  induction 1 as [|x l Hx F IH]; [reflexivity|].
  cbn [PurePath.parse_parts]. rewrite IH. cbn [PurePath.anchor PurePath.names].
  destruct x as [|c x]; [destruct Hx as [N _]; congruence|].
  rewrite (splitroot_name _ Hx), (components_name _ Hx). reflexivity.
Qed.

Lemma to_str_relative (l : list (list ascii)) :
  Forall comp_ok l -> l <> [] ->
  PurePath.to_str (PurePath.mk [] l) = Str.join [PurePath.sep] l.
Proof.
  intros F N. destruct l as [|x l]; [congruence|].
  inversion F; subst. apply to_str_names. assumption.
Qed.

(** X10.  The path of a record is the path of the file without its suffix
    and without its first part, whatever that part is.  For a content folder
    given by one name the record is relative to the folder; for a content
    folder given from the root only the root goes, and the names of the
    folder stay in the record. *)
Theorem record_path_drops_first_part :
  forall (first : list ascii) (dirs : list (list ascii)) (nm : list ascii),
    Forall comp_ok dirs -> comp_ok nm -> comp_ok (PurePath.stem_of nm) ->
    record_path (PurePath.mk [] (first :: dirs ++ [nm])) =
    Ok (Str.join [PurePath.sep] (dirs ++ [PurePath.stem_of nm])) /\
    record_path (PurePath.mk [PurePath.sep] (dirs ++ [nm])) =
    Ok (Str.join [PurePath.sep] (dirs ++ [PurePath.stem_of nm])).
Proof.
  intros first dirs nm Fd Hn Hs.
  assert (F : Forall comp_ok (dirs ++ [PurePath.stem_of nm])).
  { apply Forall_app. split; [assumption|]. constructor; [assumption|constructor]. }
  assert (N : dirs ++ [PurePath.stem_of nm] <> []) by (destruct dirs; discriminate).
  split; unfold record_path.
  - rewrite (with_suffix_empty_last (PurePath.mk [] (first :: dirs ++ [nm]))
               (first :: dirs) nm eq_refl (proj1 Hn)).
    cbn [bind PurePath.parts PurePath.anchor PurePath.names app tl].
    rewrite parse_parts_names, to_str_relative by assumption. reflexivity.
  - rewrite (with_suffix_empty_last (PurePath.mk [PurePath.sep] (dirs ++ [nm]))
               dirs nm eq_refl (proj1 Hn)).
    cbn [bind PurePath.parts PurePath.anchor PurePath.names tl].
    rewrite parse_parts_names, to_str_relative by assumption. reflexivity.
Qed.

Lemma record_path_drops_first_part_witness :
  record_path (PurePath.mk [] ["root" : list ascii; "02_data" : list ascii;
                               "a.md" : list ascii]) =
  Ok (list_ascii_of_string "02_data/a") /\
  record_path (PurePath.mk [PurePath.sep] ["home" : list ascii; "book" : list ascii;
                                           "a.md" : list ascii]) =
  Ok (list_ascii_of_string "home/book/a").
Proof.
  split.
  - apply (proj1 (record_path_drops_first_part "root" ["02_data" : list ascii] "a.md"
                    ltac:(repeat constructor; discriminate || (simpl; intuition discriminate))
                    ltac:(repeat split; discriminate || (simpl; intuition discriminate))
                    ltac:(repeat split; discriminate || (vm_compute; intuition discriminate)))).
  - apply (proj2 (record_path_drops_first_part "x"
                    ["home" : list ascii; "book" : list ascii] "a.md"
                    ltac:(repeat constructor; discriminate || (simpl; intuition discriminate))
                    ltac:(repeat split; discriminate || (simpl; intuition discriminate))
                    ltac:(repeat split; discriminate || (vm_compute; intuition discriminate)))).
Defined.

Lemma map_result_const {A B} (f : A -> result B) (l : list A) (y : B) :
  (forall x, In x l -> f x = Ok y) ->
  map_result f l = Ok (map (fun _ => y) l).
Proof.
  induction l as [|x l IH]; intros H; [reflexivity|].
  simpl. rewrite (H x) by (left; reflexivity). simpl.
  rewrite IH by (intros; apply H; right; assumption). reflexivity.
Qed.

Lemma record_path_of_one_name (nm : list ascii) :
  nm <> [] -> record_path (PurePath.mk [] [nm]) = Ok [PurePath.dot].
Proof.
  intros H. unfold record_path.
  rewrite (with_suffix_empty_last (PurePath.mk [] [nm]) [] nm eq_refl H).
  reflexivity.
Qed.

(** X11.  For the content folder ['.'], whose path has no part, dropping
    the first part drops the name of the file: every file right under the
    folder gets the record [{'path': '.'}]. *)
Theorem build_toc_in_current_directory :
  forall (node : fsnode) split_char pages,
    toc_pages (PurePath.of_str ".") node split_char = Ok pages ->
    exists below,
      pages =
      map (fun _ => path_record ".")
          (_list_supported_files (PurePath.of_str ".") node default_exclude false)
      ++ below.
Proof.
  intros node split_char pages H.
  destruct (toc_pages_shape _ _ _ _ H) as (top & below & Et & _ & ->).
  exists (concat below). f_equal.
  rewrite (map_result_const record_path _ [PurePath.dot]) in Et.
  - inversion Et. rewrite map_map. reflexivity.
  - intros ipath Hin. apply list_supported_files_spec in Hin.
    destruct Hin as (nm & _ & -> & Hs).
    apply record_path_of_one_name.
    unfold supported_entry in Hs.
    rewrite !andb_true_iff in Hs. destruct Hs as [[Hs _] _].
    apply existsb_exists in Hs. destruct Hs as (suffix & Hin & He).
    apply (endswith_not_nil suffix); [|assumption].
    unfold SUPPORTED_FILE_SUFFIXES in Hin. simpl in Hin.
    intuition (subst; discriminate).
Qed.

Lemma build_toc_in_current_directory_witness :
  exists below,
    [path_record "."; path_record "."] =
    map (fun _ => path_record ".")
        (_list_supported_files (PurePath.of_str ".")
           (Dir [("a.md" : list ascii, File); ("b.md" : list ascii, File)])
           default_exclude false) ++ below.
Proof.
  apply (build_toc_in_current_directory
           (Dir [("a.md" : list ascii, File); ("b.md" : list ascii, File)]) "_").
  reflexivity.
Defined.

Lemma nat_of_ascii_inj (a b : ascii) :
  nat_of_ascii a = nat_of_ascii b -> a = b.
Proof.
  intros H. rewrite <- (ascii_nat_embedding a), <- (ascii_nat_embedding b).
  congruence.
Qed.

Lemma str_leb_total (s t : list ascii) :
  Str.leb s t = true \/ Str.leb t s = true.
Proof.
  revert t. induction s as [|a s IH]; intros [|b t]; simpl; auto.
  destruct (nat_of_ascii a <? nat_of_ascii b) eqn:E1;
    destruct (nat_of_ascii b <? nat_of_ascii a) eqn:E2; auto.
Qed.

Lemma str_leb_antisym (s t : list ascii) :
  Str.leb s t = true -> Str.leb t s = true -> s = t.
Proof.
  revert t. induction s as [|a s IH]; intros [|b t]; simpl; try discriminate;
    [reflexivity|].
  destruct (nat_of_ascii a <? nat_of_ascii b) eqn:E1;
    destruct (nat_of_ascii b <? nat_of_ascii a) eqn:E2; try discriminate.
  - apply Nat.ltb_lt in E1, E2. lia.
  - intros H1 H2. apply Nat.ltb_ge in E1, E2.
    f_equal; [apply nat_of_ascii_inj; lia | auto].
Qed.

Lemma str_leb_trans (s t u : list ascii) :
  Str.leb s t = true -> Str.leb t u = true -> Str.leb s u = true.
Proof.
  revert t u. induction s as [|a s IH]; intros [|b t] [|c u]; simpl;
    try discriminate; auto.
  destruct (nat_of_ascii a <? nat_of_ascii b) eqn:E1;
    destruct (nat_of_ascii b <? nat_of_ascii a) eqn:E2;
    destruct (nat_of_ascii b <? nat_of_ascii c) eqn:E3;
    destruct (nat_of_ascii c <? nat_of_ascii b) eqn:E4;
    destruct (nat_of_ascii a <? nat_of_ascii c) eqn:E5;
    destruct (nat_of_ascii c <? nat_of_ascii a) eqn:E6;
    try discriminate; auto;
    rewrite ?Nat.ltb_lt, ?Nat.ltb_ge in *; try lia.
  apply IH.
Qed.

Lemma insert_sorted_sorted (e : list ascii * fsnode) l :
  StronglySorted name_le l -> StronglySorted name_le (insert_sorted e l).
Proof.
  induction 1 as [|x l S IH F]; simpl.
  - constructor; constructor.
  - destruct (Str.leb (fst x) (fst e)) eqn:E.
    + constructor; [assumption|].
      apply Forall_forall. intros y Hy. apply insert_sorted_in in Hy.
      destruct Hy as [->|Hy]; [exact E|].
      rewrite Forall_forall in F. auto.
    + assert (E' : Str.leb (fst e) (fst x) = true).
      { destruct (str_leb_total (fst e) (fst x)); congruence. }
      constructor; [constructor; assumption|].
      constructor; [exact E'|].
      apply Forall_forall. intros y Hy. rewrite Forall_forall in F.
      eapply str_leb_trans; [exact E' | apply F; assumption].
Qed.

Lemma fold_insert_sorted l acc :
  StronglySorted name_le acc ->
  StronglySorted name_le (fold_left (fun acc e => insert_sorted e acc) l acc).
Proof.
  revert acc. induction l as [|e l IH]; intros acc S; simpl; [assumption|].
  apply IH, insert_sorted_sorted. assumption.
Qed.

Lemma insert_sorted_perm (e : list ascii * fsnode) l :
  Permutation (insert_sorted e l) (e :: l).
Proof.
  induction l as [|x l IH]; simpl; [reflexivity|].
  destruct (Str.leb (fst x) (fst e)); [|reflexivity].
  rewrite IH. apply perm_swap.
Qed.

Lemma sorted_entries_perm l : Permutation (sorted_entries l) l.
Proof.
  unfold sorted_entries.
  assert (G : forall acc,
             Permutation (fold_left (fun acc e => insert_sorted e acc) l acc)
                         (l ++ acc)).
  { induction l as [|e l IH]; intros acc; simpl; [reflexivity|].
    rewrite IH, insert_sorted_perm. symmetry. apply Permutation_middle. }
  rewrite G. rewrite app_nil_r. reflexivity.
Qed.

Lemma same_name_same_entry (l : list (list ascii * fsnode)) x y :
  NoDup (map fst l) -> In x l -> In y l -> fst x = fst y -> x = y.
Proof.
  induction l as [|z l IH]; intros ND Hx Hy E; [contradiction|].
  simpl in ND. inversion ND as [|? ? Hn ND']; subst.
  destruct Hx as [->|Hx]; destruct Hy as [->|Hy]; auto.
  - exfalso. apply Hn. rewrite E. apply in_map. assumption.
  - exfalso. apply Hn. rewrite <- E. apply in_map. assumption.
Qed.

Lemma sorted_unique (l1 l2 : list (list ascii * fsnode)) :
  StronglySorted name_le l1 -> StronglySorted name_le l2 ->
  Permutation l1 l2 -> NoDup (map fst l1) -> l1 = l2.
Proof.
  intros S1. revert l2. induction S1 as [|x l1 S1 IH F1]; intros l2 S2 P ND.
  - apply Permutation_nil in P. auto.
  - destruct S2 as [|y l2 S2 F2].
    + apply Permutation_sym, Permutation_nil in P. discriminate.
    + assert (Hy : In y (x :: l1)).
      { eapply Permutation_in; [apply Permutation_sym; exact P | left; reflexivity]. }
      assert (Hx : In x (y :: l2)).
      { eapply Permutation_in; [exact P | left; reflexivity]. }
      assert (E : x = y).
      { apply (same_name_same_entry (x :: l1)); auto; [left; reflexivity|].
        rewrite Forall_forall in F1, F2.
        apply str_leb_antisym.
        - destruct Hy as [<-|Hy]; [|apply F1; assumption].
          destruct (str_leb_total (fst x) (fst x)); assumption.
        - destruct Hx as [<-|Hx]; [|apply F2; assumption].
          destruct (str_leb_total (fst y) (fst y)); assumption. }
      subst y. f_equal. apply IH; [assumption | |].
      * eapply Permutation_cons_inv. exact P.
      * simpl in ND. inversion ND. assumption.
Qed.

Lemma filter_perm {A} (f : A -> bool) (l l' : list A) :
  Permutation l l' -> Permutation (filter f l) (filter f l').
Proof.
  induction 1 as [|x l l' P IH|x y l|l l' l'' P1 IH1 P2 IH2]; simpl.
  - constructor.
  - destruct (f x); [constructor|]; assumption.
  - destruct (f x), (f y); try reflexivity. apply perm_swap.
  - etransitivity; eassumption.
Qed.

Lemma filter_names_nodup (f : list ascii * fsnode -> bool) l :
  NoDup (map fst l) -> NoDup (map fst (filter f l)).
Proof.
  induction l as [|x l IH]; simpl; intros ND; [constructor|].
  inversion ND as [|? ? Hn ND']; subst.
  destruct (f x); simpl; [|auto].
  constructor; [|auto].
  intros Hin. apply Hn. apply in_map_iff in Hin.
  destruct Hin as (y & E & Hy). apply filter_In in Hy.
  rewrite <- E. apply in_map. apply Hy.
Qed.

(** X12.  The sub-directories [build_toc] goes through come in the order of
    their names, and, the names of a directory being distinct, in the same
    order however the file system lists the directory. *)
Theorem subdirectories_sorted :
  forall entries entries',
    Permutation entries entries' -> NoDup (map fst entries) ->
    StronglySorted name_le (subdirectories (Dir entries)) /\
    subdirectories (Dir entries) = subdirectories (Dir entries').
Proof.
  intros entries entries' P ND.
  assert (S : forall l, StronglySorted name_le (sorted_entries l)).
  { intros l. apply fold_insert_sorted. constructor. }
  split; [apply S|].
  unfold subdirectories. cbn [dir_entries].
  apply sorted_unique; try apply S.
  - rewrite !sorted_entries_perm. apply filter_perm. assumption.
  - eapply Permutation_NoDup.
    + apply Permutation_map, Permutation_sym, sorted_entries_perm.
    + apply filter_names_nodup. assumption.
Qed.

Lemma subdirectories_sorted_witness :
  subdirectories (Dir [("b" : list ascii, Dir []); ("a" : list ascii, Dir [])]) =
  subdirectories (Dir [("a" : list ascii, Dir []); ("b" : list ascii, Dir [])]).
Proof.
  apply (subdirectories_sorted
           [("b" : list ascii, Dir []); ("a" : list ascii, Dir [])]
           [("a" : list ascii, Dir []); ("b" : list ascii, Dir [])]).
  - apply perm_swap.
  - repeat constructor; simpl; intuition discriminate.
Defined.

Lemma replace_aux_skip (old new x y : list ascii) :
  Str.replace_aux old new (length x) (x ++ y) = Str.replace_aux old new 0 y.
Proof. induction x as [|a x IH]; [reflexivity | exact IH]. Qed.

Lemma startswith_app_inv (old x y : list ascii) :
  Str.startswith old (x ++ y) = true ->
  Str.startswith old x = true \/
  exists rest, old = x ++ rest /\ rest <> [] /\ Str.startswith rest y = true.
Proof.
  revert old. induction x as [|a x IH]; intros old H.
  - destruct old as [|p old]; [left; reflexivity|].
    right. exists (p :: old). repeat split; [discriminate | exact H].
  - destruct old as [|p old]; [left; reflexivity|].
    cbn [app Str.startswith] in H. apply andb_true_iff in H.
    destruct H as [E H]. apply Ascii.eqb_eq in E. subst p.
    destruct (IH old H) as [L|(rest & -> & N & R)].
    + left. cbn [Str.startswith]. rewrite Ascii.eqb_refl. exact L.
    + right. exists rest. auto.
Qed.

Lemma startswith_first (old : list ascii) (c : ascii) (s : list ascii) :
  old <> [] -> ~ In c old -> Str.startswith old (c :: s) = false.
Proof.
  intros N H. destruct old as [|p old]; [congruence|].
  cbn [Str.startswith]. replace (Ascii.eqb p c) with false; [reflexivity|].
  symmetry. apply Ascii.eqb_neq. intros ->. apply H. left. reflexivity.
Qed.

Lemma startswith_in (old : list ascii) (c : ascii) (s : list ascii) :
  old <> [] -> Str.startswith old (c :: s) = true -> In c old.
Proof.
  intros N H. destruct old as [|p old]; [congruence|].
  cbn [Str.startswith] in H. apply andb_true_iff in H. destruct H as [E _].
  apply Ascii.eqb_eq in E. subst. left. reflexivity.
Qed.

Lemma contains_cons (sub : list ascii) (a : ascii) (s : list ascii) :
  Str.contains sub (a :: s) = Str.startswith sub (a :: s) || Str.contains sub s.
Proof. reflexivity. Qed.

(** A line without [old] goes through [replace] as it is. *)
Lemma replace_aux_other_line (old new line rest : list ascii) (nl : ascii) :
  old <> [] -> ~ In nl old -> Str.contains old line = false ->
  Str.replace_aux old new 0 (line ++ nl :: rest) =
  line ++ nl :: Str.replace_aux old new 0 rest.
Proof.
  intros N Hnl. induction line as [|a line IH]; intros H.
  - cbn [app Str.replace_aux]. rewrite startswith_first by assumption.
    reflexivity.
  - rewrite contains_cons in H. apply orb_false_iff in H. destruct H as [H1 H2].
    cbn [app Str.replace_aux].
    replace (Str.startswith old (a :: line ++ nl :: rest)) with false.
    + rewrite IH by assumption. reflexivity.
    + symmetry. destruct (Str.startswith old (a :: line ++ nl :: rest)) eqn:E;
        [|reflexivity].
      destruct (startswith_app_inv old (a :: line) (nl :: rest) E)
        as [L|(r & -> & Nr & R)]; [congruence|].
      exfalso. apply Hnl. apply in_or_app. right.
      eapply startswith_in; eassumption.
Qed.

(** A line that is [old] becomes [new]. *)
Lemma replace_aux_marker_line (old new rest : list ascii) (nl : ascii) :
  old <> [] -> ~ In nl old ->
  Str.replace_aux old new 0 (old ++ nl :: rest) =
  new ++ nl :: Str.replace_aux old new 0 rest.
Proof.
  intros N Hnl. destruct old as [|p old]; [congruence|].
  cbn [app Str.replace_aux].
  change (p :: old ++ nl :: rest) with ((p :: old) ++ nl :: rest).
  rewrite startswith_app. cbn [length Nat.sub]. rewrite Nat.sub_0_r.
  rewrite replace_aux_skip. cbn [Str.replace_aux].
  rewrite startswith_first by (assumption || discriminate). reflexivity.
Qed.

Lemma replace_lines (old new : list ascii) (lines : list (list ascii)) :
  old <> [] -> ~ In (ascii_of_nat 10) old ->
  forallb (fun line => Str.eqb line old || negb (Str.contains old line))
          lines = true ->
  Str.replace old new (unlines lines) =
  unlines (map (fun line => if Str.eqb line old then new else line) lines).
Proof.
  intros N Hnl. unfold Str.replace, unlines.
  induction lines as [|line lines IH]; [reflexivity|].
  cbn [forallb map concat]. rewrite andb_true_iff. intros [H Hl].
  rewrite <- !app_assoc. cbn [app].
  destruct (Str.eqb line old) eqn:E.
  - apply str_eqb_eq in E. subst line.
    rewrite replace_aux_marker_line, IH by assumption. reflexivity.
  - cbn [orb] in H. apply negb_true_iff in H.
    rewrite replace_aux_other_line, IH by assumption. reflexivity.
Qed.

(** X13.  When the dump of the records is made of lines, each of them the
    break line or a line in which the break line does not occur, the text of
    the manifest has these lines with every break line left empty. *)
Theorem manifest_text_blanks_break_lines :
  forall (yaml_safe_dump : list pyval -> list ascii) pages lines,
    yaml_safe_dump pages = unlines lines ->
    forallb (fun line => Str.eqb line BREAK_LINE ||
                         negb (Str.contains BREAK_LINE line)) lines = true ->
    manifest_text yaml_safe_dump pages =
    unlines (map (fun line => if Str.eqb line BREAK_LINE then [] else line) lines).
Proof.
  intros yaml_safe_dump pages lines E H. unfold manifest_text. rewrite E.
  apply replace_lines; [discriminate | | assumption].
  vm_compute. intuition discriminate.
Qed.

Lemma manifest_text_blanks_break_lines_witness :
  manifest_text
    (fun _ => unlines ["- path: intro" : list ascii; BREAK_LINE;
                       "- header: Data" : list ascii]) [] =
  unlines ["- path: intro" : list ascii; []; "- header: Data" : list ascii].
Proof.
  apply (manifest_text_blanks_break_lines
           (fun _ => unlines ["- path: intro" : list ascii; BREAK_LINE;
                              "- header: Data" : list ascii]) []
           ["- path: intro" : list ascii; BREAK_LINE;
            "- header: Data" : list ascii]); reflexivity.
Defined.

Lemma every_other_joined (s : list ascii) :
  every_other (Str.join [ascii_of_nat 10] (Str.chars s)) = s.
Proof.
  induction s as [|a s IH]; [reflexivity|].
  destruct s as [|b s]; [reflexivity|].
  rewrite joined_chars_cons2. cbn [every_other]. rewrite IH. reflexivity.
Qed.

Lemma length_joined (s : list ascii) :
  length (Str.join [ascii_of_nat 10] (Str.chars s)) = 2 * length s - 1.
Proof.
  induction s as [|a s IH]; [reflexivity|].
  destruct s as [|b s]; [reflexivity|].
  rewrite joined_chars_cons2. cbn [length] in *. lia.
Qed.

(** X14.  When [build_toc] returns a text, the content folder is a
    directory, and the text is not the text of the manifest: a newline
    stands between any two characters of it.  Every second character of
    the result gives the text of the manifest back, and the result is as
    long as twice that text less one. *)
Theorem build_toc_text_is_spread :
  forall (yaml_safe_dump : list pyval -> list ascii) ipython_embed found
         content_folder split_char text,
    build_toc yaml_safe_dump ipython_embed found content_folder split_char =
    Ok text ->
    exists entries pages,
      found = Some (Dir entries) /\
      toc_pages (PurePath.of_str content_folder) (Dir entries) split_char =
      Ok pages /\
      every_other text = manifest_text yaml_safe_dump pages /\
      length text = 2 * length (manifest_text yaml_safe_dump pages) - 1.
Proof.
  intros yaml_safe_dump ipython_embed found content_folder split_char text H.
  unfold build_toc in H.
  destruct found as [[|entries]|]; try discriminate.
  destruct (toc_pages (PurePath.of_str content_folder) (Dir entries) split_char)
    as [pages|e] eqn:E; [|discriminate].
  cbn [bind] in H. destruct ipython_embed as [[]|e]; [|discriminate].
  cbn [bind] in H. inversion H.
  exists entries, pages. repeat split; try assumption.
  - apply every_other_joined.
  - apply length_joined.
Qed.

Lemma build_toc_text_is_spread_witness :
  exists entries pages,
    Some (Dir []) = Some (Dir entries) /\
    toc_pages (PurePath.of_str "root") (Dir entries) "_" = Ok pages /\
    every_other ("[" ++ [ascii_of_nat 10] ++ "]") =
    manifest_text (fun _ => "[]") pages /\
    length ("[" ++ [ascii_of_nat 10] ++ "]") =
    2 * length (manifest_text (fun _ => "[]") pages) - 1.
Proof.
  apply (build_toc_text_is_spread (fun _ => "[]") (Ok tt) (Some (Dir []))
           "root" "_"). reflexivity.
Defined.

Lemma map_result_map {A B C} (g : A -> B) (f : B -> result C) (h : A -> C)
  (l : list A) :
  (forall x, In x l -> f (g x) = Ok (h x)) ->
  map_result f (map g l) = Ok (map h l).
Proof.
  induction l as [|x l IH]; intros H; [reflexivity|].
  cbn [map map_result]. rewrite (H x) by (left; reflexivity). cbn [bind].
  rewrite IH by (intros; apply H; right; assumption). reflexivity.
Qed.

Lemma section_entries (os_path_relpath : pyval -> list ascii -> result (list ascii))
  (py_format : pyval -> list ascii) (page : pyval) (p : list ascii)
  (secs : list (list (list ascii * pyval))) (rels : list (list ascii)) :
  py_getitem page "path" = Ok (VStr p) ->
  Forall2 (fun sec rel =>
             os_path_relpath (dict_get_default sec "path" VNone)
               (PurePath.to_str (PurePath.parent (PurePath.of_str p))) = Ok rel)
          secs rels ->
  map_result (section_entry os_path_relpath py_format page)
             (map (fun sec => (dict_get_default sec "path" VNone,
                               dict_get_default sec "name" VNone)) secs) =
  Ok (map (fun sr => section_label py_format (fst sr) (snd sr))
          (combine secs rels)).
Proof.
  intros HP. induction 1 as [|sec rel secs rels Hr F IH]; [reflexivity|].
  cbn [map map_result combine]. unfold section_entry at 1.
  rewrite HP. cbn [bind]. rewrite Hr. cbn [bind]. rewrite IH.
  unfold section_label. cbn [fst snd].
  destruct (truthy (dict_get_default sec "name" VNone)); reflexivity.
Qed.

Lemma page_toctree_of_parent :
  forall (os_path_relpath : pyval -> list ascii -> result (list ascii))
         (py_format : pyval -> list ascii) entries p secs rels opts,
    dict_get entries "path" = Some (VStr p) ->
    dict_get entries "sections" = Some (VList (map VDict secs)) ->
    secs <> [] ->
    option_items entries = Some opts ->
    Forall2 (fun sec rel =>
               os_path_relpath (dict_get_default sec "path" VNone)
                 (PurePath.to_str (PurePath.parent (PurePath.of_str p))) = Ok rel)
            secs rels ->
    page_toctree os_path_relpath py_format (VDict entries) =
    Ok (Some (toctree_text
                (Str.join [ascii_of_nat 10]
                   (map (fun o => ":" ++ py_format o ++ ":") opts))
                (Str.join [ascii_of_nat 10]
                   (map (fun sr => section_label py_format (fst sr) (snd sr))
                        (combine secs rels))))).
Proof.
  intros os_path_relpath py_format entries p secs rels opts HP HS HN HO HR.
  unfold page_toctree, py_get, dict_get_default. rewrite HS.
  cbn [bind py_iter].
  rewrite (map_result_map
             (fun sec => VDict sec) _
             (fun sec => (dict_get_default sec "path" VNone,
                          dict_get_default sec "name" VNone)))
    by reflexivity.
  cbn [bind].
  destruct secs as [|sec secs]; [congruence|].
  destruct rels as [|rel rels]; [inversion HR|].
  cbn [map].
  change ((dict_get_default sec "path" VNone, dict_get_default sec "name" VNone)
          :: map (fun sec0 => (dict_get_default sec0 "path" VNone,
                               dict_get_default sec0 "name" VNone)) secs)
    with (map (fun sec0 => (dict_get_default sec0 "path" VNone,
                            dict_get_default sec0 "name" VNone)) (sec :: secs)).
  rewrite (section_entries os_path_relpath py_format (VDict entries) p
             (sec :: secs) (rel :: rels)); [| | assumption].
  2:{ unfold py_getitem. rewrite HP. reflexivity. }
  cbn [bind]. unfold option_items in HO.
  destruct (dict_get entries "options") as [o|]; [|inversion HO; reflexivity].
  destruct o; inversion HO; reflexivity.
Qed.

(** The folder of a page whose path is made of names: the names before
    the last, ['.'] when there is none. *)
Lemma parent_of_joined (dirs : list (list ascii)) (nm : list ascii) :
  Forall comp_ok dirs -> comp_ok nm ->
  PurePath.to_str
    (PurePath.parent (PurePath.of_str (Str.join [PurePath.sep] (dirs ++ [nm])))) =
  match dirs with
  | [] => [PurePath.dot]
  | _ :: _ => Str.join [PurePath.sep] dirs
  end.
Proof.
  intros Fd Hn.
  assert (F : Forall comp_ok (dirs ++ [nm])).
  { apply Forall_app. split; [assumption|]. constructor; [assumption|constructor]. }
  assert (N : dirs ++ [nm] <> []) by (destruct dirs; discriminate).
  rewrite <- (to_str_relative _ F N).
  rewrite of_str_to_str by (split; [left; reflexivity | exact F]).
  unfold PurePath.parent. cbn [PurePath.anchor PurePath.names].
  rewrite removelast_last.
  destruct dirs as [|d dirs]; [reflexivity|].
  apply to_str_relative; [assumption | discriminate].
Qed.

(** X15.  The toctree written for a page whose path is made of names and
    whose sections are dicts.  After an empty line come the opening of the
    directive and its two fixed options; then the options of the page, one
    line each in the order given, a lone [str] counting as one option; an
    empty line; then one line a section, in the order of the sections, each
    the path of the section relative to the folder of the page (['.'] for a
    page without folder), behind the name of the section when it has a true
    one; and the closing of the directive. *)
Theorem page_toctree_lines :
  forall (os_path_relpath : pyval -> list ascii -> result (list ascii))
         (py_format : pyval -> list ascii) entries dirs nm secs rels opts,
    Forall comp_ok dirs -> comp_ok nm ->
    dict_get entries "path" =
    Some (VStr (Str.join [PurePath.sep] (dirs ++ [nm]))) ->
    dict_get entries "sections" = Some (VList (map VDict secs)) ->
    secs <> [] ->
    option_items entries = Some opts ->
    Forall2 (fun sec rel =>
               os_path_relpath (dict_get_default sec "path" VNone)
                 (match dirs with
                  | [] => [PurePath.dot]
                  | _ :: _ => Str.join [PurePath.sep] dirs
                  end) = Ok rel)
            secs rels ->
    page_toctree os_path_relpath py_format (VDict entries) =
    Ok (Some ([ascii_of_nat 10] ++ "```{toctree}" ++ [ascii_of_nat 10] ++
              ":hidden:" ++ [ascii_of_nat 10] ++
              ":titlesonly:" ++ [ascii_of_nat 10] ++
              Str.join [ascii_of_nat 10]
                (map (fun o => ":" ++ py_format o ++ ":") opts) ++
              [ascii_of_nat 10] ++ [ascii_of_nat 10] ++
              Str.join [ascii_of_nat 10]
                (map (fun sr =>
                        if truthy (dict_get_default (fst sr) "name" VNone)
                        then py_format (dict_get_default (fst sr) "name" VNone)
                             ++ " <" ++ snd sr ++ ">"
                        else snd sr)
                     (combine secs rels)) ++
              [ascii_of_nat 10] ++ "```" ++ [ascii_of_nat 10])).
Proof.
  intros os_path_relpath py_format entries dirs nm secs rels opts
         Fd Hn HP HS HN HO HR.
  rewrite (page_toctree_of_parent os_path_relpath py_format entries
             (Str.join [PurePath.sep] (dirs ++ [nm])) secs rels opts);
    try assumption.
  - reflexivity.
  - rewrite parent_of_joined by assumption. exact HR.
Qed.

Lemma page_toctree_lines_witness :
  let relpath := fun (v : pyval) (start : list ascii) =>
                   match v with
                   | VStr s =>
                       if Str.startswith (start ++ "/") s
                       then Ok (skipn (length start + 1) s)
                       else Ok ("../" ++ s)
                   | _ => Err TypeError
                   end in
  let format := fun v => match v with VStr s => s | _ => [] end in
  page_toctree relpath format
    (VDict [("path" : list ascii, VStr "part/index");
            ("options" : list ascii, VStr "numbered");
            ("sections" : list ascii,
             VList [VDict [("path" : list ascii, VStr "part/b")];
                    VDict [("path" : list ascii, VStr "part/a");
                           ("name" : list ascii, VStr "First")]])]) =
  Ok (Some ([ascii_of_nat 10] ++ "```{toctree}" ++ [ascii_of_nat 10] ++
            ":hidden:" ++ [ascii_of_nat 10] ++
            ":titlesonly:" ++ [ascii_of_nat 10] ++
            ":numbered:" ++ [ascii_of_nat 10] ++ [ascii_of_nat 10] ++
            "b" ++ [ascii_of_nat 10] ++ "First <a>" ++ [ascii_of_nat 10] ++
            "```" ++ [ascii_of_nat 10])).
Proof.
  intros relpath format.
  apply (page_toctree_lines relpath format
           [("path" : list ascii, VStr "part/index");
            ("options" : list ascii, VStr "numbered");
            ("sections" : list ascii,
             VList [VDict [("path" : list ascii, VStr "part/b")];
                    VDict [("path" : list ascii, VStr "part/a");
                           ("name" : list ascii, VStr "First")]])]
           ["part" : list ascii] "index"
           [[("path" : list ascii, VStr "part/b")];
            [("path" : list ascii, VStr "part/a");
             ("name" : list ascii, VStr "First")]]
           ["b" : list ascii; "a" : list ascii]
           [VStr "numbered"]); try reflexivity.
  - repeat constructor; simpl; intuition discriminate.
  - repeat split; simpl; intuition discriminate.
  - discriminate.
  - repeat constructor.
Defined.

(** X16.  A page whose suffix-free path is the name looked for is returned
    without its sections being looked at, whatever they are.  When it is
    not, sections that are [None] (a key [sections] left empty in the
    manifest) raise [TypeError], and sections that start with a [str] raise
    [AttributeError]. *)
Theorem find_name_malformed_sections :
  forall entries name key,
    _no_suffix (page_path (VDict entries)) = Ok key ->
    (py_eq_str key name = true ->
     find_name (VDict entries) name = Ok (VDict entries)) /\
    (py_eq_str key name = false ->
     dict_get entries "sections" = Some VNone ->
     find_name (VDict entries) name = Err TypeError) /\
    (forall s rest,
       py_eq_str key name = false ->
       dict_get entries "sections" = Some (VList (VStr s :: rest)) ->
       find_name (VDict entries) name = Err AttributeError).
Proof.
  intros entries name key HK. rewrite find_name_dict. unfold visit.
  rewrite HK. cbn [bind]. repeat split.
  - intros ->. reflexivity.
  - intros -> HS. unfold page_sections, dict_get_default. rewrite HS.
    reflexivity.
  - intros s rest -> HS. unfold page_sections, dict_get_default. rewrite HS.
    reflexivity.
Qed.

Lemma find_name_malformed_sections_witness :
  find_name (VDict [("path" : list ascii, VStr "index.md");
                    ("sections" : list ascii, VNone)]) "index" =
  Ok (VDict [("path" : list ascii, VStr "index.md");
             ("sections" : list ascii, VNone)]) /\
  find_name (VDict [("path" : list ascii, VStr "index.md");
                    ("sections" : list ascii, VNone)]) "intro" =
  Err TypeError.
Proof.
  split.
  - apply (proj1 (find_name_malformed_sections
                    [("path" : list ascii, VStr "index.md");
                     ("sections" : list ascii, VNone)]
                    "index" (VStr "index") eq_refl)). reflexivity.
  - apply (proj1 (proj2 (find_name_malformed_sections
                           [("path" : list ascii, VStr "index.md");
                            ("sections" : list ascii, VNone)]
                           "intro" (VStr "index") eq_refl))); reflexivity.
Defined.

Lemma subdir_records_head (content_folder : PurePath.t) split_char
  (subdirs : list (list ascii * fsnode)) (below : list (list pyval)) :
  map_result (subdir_pages content_folder split_char) subdirs = Ok below ->
  concat below = [] \/
  exists title rest,
    concat below = VStr BREAK_MARKER :: header_record title :: rest.
Proof.
  revert below. induction subdirs as [|e subdirs IH]; intros below H.
  - inversion H. left. reflexivity.
  - apply map_result_cons in H. destruct H as (pg & pgs & Ee & Er & ->).
    apply subdir_pages_shape in Ee.
    destruct Ee as [[_ ->]|(title & urls & _ & ->)].
    + simpl. apply IH. assumption.
    + right. exists title. eexists. reflexivity.
Qed.

(** X17.  For a content folder with no supported file right under it, the
    list of records [build_toc] builds is empty, or starts with the break
    marker and the header of the first sub-directory that holds a file: no
    record with the key [path] comes first. *)
Theorem generated_records_without_top_files :
  forall (content_folder : PurePath.t) node split_char pages,
    toc_pages content_folder node split_char = Ok pages ->
    _list_supported_files content_folder node default_exclude false = [] ->
    pages = [] \/
    exists title rest,
      pages = VStr BREAK_MARKER :: header_record title :: rest.
Proof.
  intros content_folder node split_char pages H HF.
  destruct (toc_pages_shape _ _ _ _ H) as (top & below & Et & Eb & ->).
  rewrite HF in Et. inversion Et; subst top. cbn [map app].
  eapply subdir_records_head. exact Eb.
Qed.

Lemma generated_records_without_top_files_witness :
  [VStr BREAK_MARKER; header_record "Part"; url_record "part/a"] = [] \/
  exists title rest,
    [VStr BREAK_MARKER; header_record "Part"; url_record "part/a"] =
    VStr BREAK_MARKER :: header_record title :: rest.
Proof.
  apply (generated_records_without_top_files (PurePath.of_str "root")
           (Dir [("part" : list ascii, Dir [("a.md" : list ascii, File)])]) "_");
    reflexivity.
Defined.
